(** * http-server.py: a GET-only HTTP socket server

    A shallow embedding of [src/http-server.py] and the properties of its
    request parser, resource resolver, response builders, accept loop and
    command-line entry point.

    Conventions of the embedding.
    - A Python [bytes] object is a [list byte].
    - A Python [str] is represented by its UTF-8 encoding, as a [string]
      (one [ascii] per encoded byte).  [str.encode()] is then the
      conversion [list_byte_of_string], and [bytes.decode()] is its partial
      inverse, defined on the well-formed UTF-8 sequences only.
    - Code that prints, touches the socket or the file system, or raises,
      runs in the monad [M]: a state monad over the [world] whose result is
      either a value or a raised exception.  The state survives a raise, as
      the effects performed before a Python exception do.
    - The [world] carries what the program cannot decide itself: what each
      path names, the table of [mimetypes], whether [bind] succeeds.  Every
      call the program makes on the outside is appended to the world's
      [trace], so that what was sent, printed or looked up can be read off
      a run.
    - The names in a directory are kept as the bytes the file system holds;
      a name that is not well-formed UTF-8 is one that [os.listdir] returns
      with lone surrogates, which the strict encoder refuses.
    - [repr] works on code points, each with the printable class that the
      interpreter's Unicode database gives it.
    - The [while True] loop is run on the finite list of arrivals that reach
      the listening socket; with the list used up the server is still
      blocked in [accept].  [recv] returns the first [PACKET_SIZE] bytes of
      what the client sent, and [send] is recorded with the bytes handed to
      it.  An arrival also says what befalls the calls on the client's
      socket: [recv], [send] and [close] can each raise, for a connection
      that the peer resets or for the operator's interrupt. *)

From Stdlib Require Import List String Ascii Strings.Byte ZArith NArith Lia Bool.
From Stdlib Require Import DecimalString.
Import ListNotations.

Local Open Scope list_scope.
Local Open Scope string_scope.

(** ** Python values used by the program *)

Definition str := string.
Definition bytes := list byte.

(** Concatenation of lists, and so of [bytes] (the [+] behind the source's
    [+=]); [++] is kept for [str]. *)
Infix "+++" := (@app _) (at level 60, right associativity).

(** [s.encode()] with the default codec. *)
Definition encode (s : str) : bytes := list_byte_of_string s.

Definition CR : ascii := ascii_of_nat 13.
Definition LF : ascii := ascii_of_nat 10.
Definition NUL : ascii := ascii_of_nat 0.
Definition TAB : ascii := ascii_of_nat 9.
Definition SPACE : ascii := ascii_of_nat 32.
Definition DQUOTE : ascii := ascii_of_nat 34.
Definition SQUOTE : ascii := ascii_of_nat 39.
Definition BACKSLASH : ascii := ascii_of_nat 92.

(** The escapes ['\r\n'] and ['\n'] of the source's literals. *)
Definition CRLF : str := String CR (String LF EmptyString).
Definition NL : str := String LF EmptyString.

(** *** Well-formed UTF-8, as the strict decoder accepts it *)

Definition in_range (lo hi : N) (b : byte) : bool :=
  (N.leb lo (Byte.to_N b) && N.leb (Byte.to_N b) hi)%bool.

Definition continuation : byte -> bool := in_range 128 191.

(** One code point per step; [fuel] bounds the number of code points and is
    the length of the input at the call site. *)
Fixpoint utf8_valid_fuel (fuel : nat) (data : bytes) : bool :=
  match fuel with
  | O => match data with [] => true | _ => false end
  | S fuel' =>
    match data with
    | [] => true
    | b0 :: rest =>
      if in_range 0 127 b0 then utf8_valid_fuel fuel' rest
      else if in_range 194 223 b0 then
        match rest with
        | b1 :: rest' => continuation b1 && utf8_valid_fuel fuel' rest'
        | _ => false
        end
      else if in_range 224 239 b0 then
        match rest with
        | b1 :: b2 :: rest' =>
          (if N.eqb (Byte.to_N b0) 224 then in_range 160 191 b1
           else if N.eqb (Byte.to_N b0) 237 then in_range 128 159 b1
           else continuation b1)
          && continuation b2 && utf8_valid_fuel fuel' rest'
        | _ => false
        end
      else if in_range 240 244 b0 then
        match rest with
        | b1 :: b2 :: b3 :: rest' =>
          (if N.eqb (Byte.to_N b0) 240 then in_range 144 191 b1
           else if N.eqb (Byte.to_N b0) 244 then in_range 128 143 b1
           else continuation b1)
          && continuation b2 && continuation b3 && utf8_valid_fuel fuel' rest'
        | _ => false
        end
      else false
    end
  end%bool.

Definition utf8_valid (data : bytes) : bool :=
  utf8_valid_fuel (List.length data) data.

(** [data.decode()]: [None] stands for [UnicodeDecodeError]. *)
Definition decode (data : bytes) : option str :=
  if utf8_valid data then Some (string_of_list_byte data) else None.

(** *** [str.split(' ')] and indexing *)

(** [s.split(sep)] for a one-character separator: every occurrence splits,
    consecutive separators give empty tokens, and the result is never
    empty. *)
Fixpoint split (sep : ascii) (s : str) : list str :=
  match s with
  | EmptyString => [EmptyString]
  | String c rest =>
    if Ascii.eqb c sep then EmptyString :: split sep rest
    else match split sep rest with
         | tok :: toks => String c tok :: toks
         | [] => [String c EmptyString]
         end
  end.

(** *** Formatting: [str(n)], [repr(s)] and f-string fields *)

(** [str(n)] for the result of [len]. *)
Definition str_of_nat (n : nat) : str := NilZero.string_of_uint (Nat.to_uint n).

(** [str(z)] for an [int]. *)
Definition str_of_int (z : Z) : str := NilZero.string_of_int (Z.to_int z).

Fixpoint contains (c : ascii) (s : str) : bool :=
  match s with
  | EmptyString => false
  | String d rest => (Ascii.eqb c d || contains c rest)%bool
  end.

Definition hex_digit (n : N) : ascii :=
  if N.ltb n 10 then ascii_of_N (48 + n) else ascii_of_N (87 + n).

(** [n] in lower-case hexadecimal, on [width] digits. *)
Fixpoint hex (width : nat) (n : N) : str :=
  match width with
  | O => EmptyString
  | S width' =>
    hex width' (N.div n 16) ++ String (hex_digit (N.modulo n 16)) EmptyString
  end.

(** A character of a [str] that [repr] is applied to: its code point, and
    whether the interpreter's Unicode database classes it as printable
    ([str.isprintable]).  For the code points below 128 the class is fixed
    and the flag is not consulted. *)
Record pychar : Type := { code : N; printable : bool }.

(** A [str] given by its characters. *)
Definition text := list pychar.

(** The characters of an ASCII literal. *)
Fixpoint text_of (s : str) : text :=
  match s with
  | EmptyString => []
  | String c rest => {| code := N_of_ascii c; printable := true |} :: text_of rest
  end.

(** The UTF-8 encoding of the code point [n]. *)
Definition utf8_of (n : N) : str :=
  let tail (k : N) := ascii_of_N (128 + N.modulo (N.div n k) 64) in
  if N.ltb n 128 then String (ascii_of_N n) EmptyString
  else if N.ltb n 2048 then
    String (ascii_of_N (192 + N.div n 64)) (String (tail 1%N) EmptyString)
  else if N.ltb n 65536 then
    String (ascii_of_N (224 + N.div n 4096))
      (String (tail 64%N) (String (tail 1%N) EmptyString))
  else
    String (ascii_of_N (240 + N.div n 262144))
      (String (tail 4096%N) (String (tail 64%N) (String (tail 1%N) EmptyString))).

(** One character of [repr(s)] inside the quotes of code [quote]: the quote
    and the backslash are escaped, so are tab, line feed and carriage
    return, the other ASCII controls are written [\xhh], and a character
    above 127 is copied when it is printable and written [\xhh], [\uhhhh]
    or [\Uhhhhhhhh] when it is not. *)
Definition repr_char (quote : N) (c : pychar) : str :=
  let n := code c in
  if (N.eqb n quote || N.eqb n 92)%bool
  then String BACKSLASH (utf8_of n)
  else if N.eqb n 9 then String BACKSLASH "t"
  else if N.eqb n 10 then String BACKSLASH "n"
  else if N.eqb n 13 then String BACKSLASH "r"
  else if (N.ltb n 32 || N.eqb n 127)%bool
  then String BACKSLASH (String "x" (hex 2 n))
  else if N.ltb n 127 then utf8_of n
  else if printable c then utf8_of n
  else if N.ltb n 256 then String BACKSLASH (String "x" (hex 2 n))
  else if N.ltb n 65536 then String BACKSLASH (String "u" (hex 4 n))
  else String BACKSLASH (String "U" (hex 8 n)).

Fixpoint repr_body (quote : N) (s : text) : str :=
  match s with
  | [] => EmptyString
  | c :: rest => repr_char quote c ++ repr_body quote rest
  end.

Definition has_code (n : N) (s : text) : bool :=
  existsb (fun c => N.eqb (code c) n) s.

(** [repr(s)]: single quotes, unless [s] has a single quote and no double
    quote. *)
Definition repr_str (s : text) : str :=
  let quote : N :=
    if (has_code 39 s && negb (has_code 34 s))%bool then 34%N else 39%N in
  utf8_of quote ++ repr_body quote s ++ utf8_of quote.

Definition repr_opt (o : option text) : str :=
  match o with
  | None => "None"
  | Some s => repr_str s
  end.

(** The values [request_mime_type] holds: a [str], or the pair
    [(type, encoding)] that [mimetypes.guess_type] returns. *)
Inductive mime_value : Type :=
| MimeStr (s : str)
| MimePair (guess : option text * option text).

(** The text an f-string field [{v}] expands to. *)
Definition format (v : mime_value) : str :=
  match v with
  | MimeStr s => s
  | MimePair (ty, enc) => "(" ++ repr_opt ty ++ ", " ++ repr_opt enc ++ ")"
  end.

(** ** Exceptions, effects and the world *)

(** The exceptions the program can meet.  [SystemExit] is what [sys.exit]
    raises; [SocketTimeout] is what [accept] raises when the listening
    socket's timeout expires. *)
Inductive exn : Type :=
| OSError
| ValueError
| IndexError
| UnicodeDecodeError
| UnicodeEncodeError
| KeyboardInterrupt
| SocketTimeout
| SystemExit (code : Z).

(** [except OSError] also catches the subclasses of [OSError]. *)
Definition is_OSError (e : exn) : bool :=
  match e with
  | OSError | SocketTimeout => true
  | _ => false
  end.

Definition is_KeyboardInterrupt (e : exn) : bool :=
  match e with
  | KeyboardInterrupt => true
  | _ => false
  end.

(** What the process does to the outside, in program order: each
    constructor records one call with its arguments. *)
Inductive effect : Type :=
| PrintLine (line : str)
| SockBind (host : str) (port : Z)
| SockSetTimeout (seconds : Z)
| SockListen (backlog : Z)
| SockAccept
| SockRecv (bufsize : nat)
| SockSend (response : bytes)
| ClientClose
| SockClose
| IsDir (path : str)
| ListDir (path : str)
| OpenRead (path : str).

(** What a path names.  [File None] is a file that cannot be opened or read
    and [Directory None] a directory that cannot be listed (permission
    denied, I/O error).  The entries of a directory are the names as the
    file system holds them, bytes that need not be well-formed UTF-8. *)
Inductive node : Type :=
| Missing
| File (content : option bytes)
| Directory (entries : option (list bytes)).

(** The part of the machine the program talks to.  [fs] is the operating
    system's path resolution: it is given the path string as passed to the
    system call, and resolves [.] and [..] segments itself.  [mime_db] is
    the table behind [mimetypes.guess_type], [bindable] tells whether [bind]
    succeeds, and [trace] collects the effects performed so far. *)
Record world : Type := {
  fs : str -> node;
  mime_db : str -> option text * option text;
  bindable : str -> Z -> bool;
  trace : list effect
}.

Definition record (e : effect) (w : world) : world :=
  {| fs := fs w; mime_db := mime_db w; bindable := bindable w;
     trace := trace w +++ [e] |}.

(** ** The monad of Python code *)

Inductive result (A : Type) : Type :=
| Val (a : A)
| Raised (e : exn).
Arguments Val {A} a.
Arguments Raised {A} e.

(** A computation over a state [S]: the state reached is returned also when
    an exception is raised. *)
Definition M (S A : Type) : Type := S -> result A * S.

Definition ret {S A} (a : A) : M S A := fun s => (Val a, s).

Definition bind {S A B} (m : M S A) (k : A -> M S B) : M S B :=
  fun s => match m s with
           | (Val a, s') => k a s'
           | (Raised e, s') => (Raised e, s')
           end.

Definition raise {S A} (e : exn) : M S A := fun s => (Raised e, s).

(** [try: body  except <catches>: handler]. *)
Definition try_except {S A} (body : M S A) (catches : exn -> bool)
    (handler : M S A) : M S A :=
  fun s => match body s with
           | (Raised e, s') => if catches e then handler s' else (Raised e, s')
           | done => done
           end.

Declare Scope py_scope.
Delimit Scope py_scope with py.
Notation "x <- m ;; k" := (bind m (fun x => k))
  (at level 61, m at next level, right associativity) : py_scope.
Notation "m ;; k" := (bind m (fun _ => k))
  (at level 61, right associativity) : py_scope.
Local Open Scope py_scope.

(** [for x in xs: body]. *)
Fixpoint for_each {S X} (xs : list X) (body : X -> M S unit) : M S unit :=
  match xs with
  | [] => ret tt
  | x :: rest => body x ;; for_each rest body
  end.

(** [xs[i]], raising [IndexError] out of range. *)
Definition index {S A} (xs : list A) (i : nat) : M S A :=
  match nth_error xs i with
  | Some x => ret x
  | None => raise IndexError
  end.

(** [sys.exit(code)]. *)
Definition sys_exit {S A} (code : Z) : M S A := raise (SystemExit code).

(** *** Local variables of a function

    A function whose locals are assigned inside a [try] block and read after
    it runs over the state [L * world], [L] being its frame. *)

Definition lift {L A} (m : M world A) : M (L * world) A :=
  fun s => let (r, w') := m (snd s) in (r, (fst s, w')).

Definition get_locals {L} : M (L * world) L := fun s => (Val (fst s), s).

Definition modify_locals {L} (f : L -> L) : M (L * world) unit :=
  fun s => (Val tt, (f (fst s), snd s)).

Definition with_locals {L A} (init : L) (m : M (L * world) A) : M world A :=
  fun w => let (r, s') := m (init, w) in (r, snd s').

(** ** Primitive operations *)

Definition emit (e : effect) : M world unit := fun w => (Val tt, record e w).

Definition print (line : str) : M world unit := emit (PrintLine line).

(** What the operating system finds at [path]: a path with an embedded NUL
    never reaches it and names nothing. *)
Definition stat (w : world) (path : str) : node :=
  if contains NUL path then Missing else fs w path.

(** [os.path.isdir(path)]: never raises, and answers [False] also for a path
    with an embedded NUL. *)
Definition os_path_isdir (path : str) : M world bool :=
  emit (IsDir path) ;;
  fun w => (Val match stat w path with
                | Directory _ => true
                | _ => false
                end, w).

(** [os.listdir(path)].  Each name of the result stands for the [str] that
    [listdir] makes of it: its decoding, in which a byte that is not part of
    well-formed UTF-8 becomes a lone surrogate. *)
Definition os_listdir (path : str) : M world (list bytes) :=
  emit (ListDir path) ;;
  fun w => if contains NUL path then (Raised ValueError, w)
           else match stat w path with
                | Directory (Some entries) => (Val entries, w)
                | _ => (Raised OSError, w)
                end.

(** [with open(path, 'rb') as f: f.read()]: the whole content, or [OSError]
    when the path is missing, is a directory, or cannot be opened or read.
    An embedded NUL is refused with [ValueError] before the system is
    asked. *)
Definition open_read (path : str) : M world bytes :=
  emit (OpenRead path) ;;
  fun w => if contains NUL path then (Raised ValueError, w)
           else match stat w path with
                | File (Some content) => (Val content, w)
                | _ => (Raised OSError, w)
                end.

(** [f'{file}\n'.encode()] for a name [file] that [os.listdir] returned: the
    strict encoder gives back the bytes of a well-formed name and refuses
    the lone surrogates of any other. *)
Definition encode_line {S} (file : bytes) : M S bytes :=
  if utf8_valid file then ret (file +++ encode NL)
  else raise UnicodeEncodeError.

(** [mimetypes.guess_type(path)]. *)
Definition guess_type (path : str) : M world (option text * option text) :=
  fun w => (Val (mime_db w path), w).

(** [s.bind((host, port))]. *)
Definition sock_bind (host : str) (port : Z) : M world unit :=
  emit (SockBind host port) ;;
  fun w => if bindable w host port then (Val tt, w) else (Raised OSError, w).

(** ** The program *)

Definition PACKET_SIZE : nat := 1024.
Definition ROOT_DIR : str := "public".

(** [generate_not_found_response]. The fourth literal is not an f-string
    in the source, so its braces are ordinary characters. *)
Definition generate_not_found_response : bytes :=
  let not_found_page := encode "<html><h1>Not found!</h1></html>" in
  let response := encode ("HTTP/1.1 404 Not Found" ++ CRLF) in
  let response := response +++ encode ("Connection: close" ++ CRLF) in
  let response := response +++ encode ("Content-Type: text/html" ++ CRLF) in
  let response :=
    response
    +++ encode ("Content-Length: {len(not_found_page)}" ++ CRLF ++ CRLF) in
  let response := response +++ not_found_page in
  response.

(** [generate_ok_response]. *)
Definition generate_ok_response (request_data : bytes)
    (request_mime_type : mime_value) : bytes :=
  let response := encode ("HTTP/1.1 OK 200" ++ CRLF) in
  let response := response +++ encode ("Connection: close" ++ CRLF) in
  let response :=
    response +++ encode ("Content-Type: " ++ format request_mime_type ++ CRLF) in
  let response :=
    response
    +++ encode ("Content-Length: " ++ str_of_nat (List.length request_data)
                ++ CRLF ++ CRLF) in
  let response := response +++ request_data in
  response.

(** The locals of [get_request_data] that outlive its [try] block. *)
Record locals : Type := {
  request_data : bytes;
  request_mime_type : mime_value
}.

(** [request_data += chunk]. *)
Definition append_data (chunk : bytes) : M (locals * world) unit :=
  modify_locals (fun l => {| request_data := request_data l +++ chunk;
                             request_mime_type := request_mime_type l |}).

(** [request_mime_type = v]. *)
Definition set_mime_type (v : mime_value) : M (locals * world) unit :=
  modify_locals (fun l => {| request_data := request_data l;
                             request_mime_type := v |}).

(** [get_request_data]. *)
Definition get_request_data (request_uri : str) : M world (bytes * mime_value) :=
  let path := ROOT_DIR ++ request_uri in
  with_locals {| request_data := []; request_mime_type := MimeStr "" |}
    (try_except
       (is_dir <- lift (os_path_isdir path) ;;
        if is_dir : bool then
          append_data (encode ("Contents of " ++ path ++ NL ++ NL)) ;;
          files <- lift (os_listdir path) ;;
          for_each files (fun file =>
            line <- encode_line file ;;
            append_data line ;;
            set_mime_type (MimeStr "text/plain"))
        else
          content <- lift (open_read path) ;;
          append_data content ;;
          guess <- lift (guess_type path) ;;
          set_mime_type (MimePair guess))
       is_OSError
       (lift (print "[!] Error: File does not exist.")) ;;
     l <- get_locals ;;
     ret (request_data l, request_mime_type l)).

(** [parse_request_line]. *)
Definition parse_request_line (request : str) : M world str :=
  request_method <- index (split SPACE request) 0 ;;
  (if negb (String.eqb request_method "GET") then
     print "[!] Error: This server only handles GET requests." ;;
     sys_exit 1
   else ret tt) ;;
  request_uri <- index (split SPACE request) 1 ;;
  ret request_uri.

(** What can befall a call on the client's socket: the peer resets the
    connection ([ConnectionResetError] or [BrokenPipeError], both of them
    [OSError]s), or the operator's interrupt arrives while the call waits. *)
Inductive trouble : Type :=
| PeerReset
| OperatorInterrupt.

Definition raised_by (t : trouble) : exn :=
  match t with
  | PeerReset => OSError
  | OperatorInterrupt => KeyboardInterrupt
  end.

(** What one turn of the loop meets.  In [accept]: a client that sends
    [payload] and is served undisturbed, the operator's interrupt, or the
    expiry of the timeout.  After [accept]: a client whose [recv] raises, or
    one that sends [payload] and whose [send] or [close] raises. *)
Inductive arrival : Type :=
| Connection (payload : bytes)
| Interrupt
| AcceptTimeout
| RecvTrouble (t : trouble)
| SendTrouble (payload : bytes) (t : trouble)
| CloseTrouble (payload : bytes) (t : trouble).

(** [s.accept()] followed by [client.recv(bufsize)]. *)
Definition accept_recv (a : arrival) (bufsize : nat) : M world bytes :=
  match a with
  | Connection payload | SendTrouble payload _ | CloseTrouble payload _ =>
    emit SockAccept ;;
    emit (SockRecv bufsize) ;;
    ret (firstn bufsize payload)
  | RecvTrouble t =>
    emit SockAccept ;;
    emit (SockRecv bufsize) ;;
    raise (raised_by t)
  | Interrupt => raise KeyboardInterrupt
  | AcceptTimeout => raise SocketTimeout
  end.

(** [client.send(response)]. *)
Definition client_send (a : arrival) (response : bytes) : M world unit :=
  emit (SockSend response) ;;
  match a with
  | SendTrouble _ t => raise (raised_by t)
  | _ => ret tt
  end.

(** [client.close()]. *)
Definition client_close (a : arrival) : M world unit :=
  emit ClientClose ;;
  match a with
  | CloseTrouble _ t => raise (raised_by t)
  | _ => ret tt
  end.

(** [data.decode()]. *)
Definition decode_request (data : bytes) : M world str :=
  match decode data with
  | Some request => ret request
  | None => raise UnicodeDecodeError
  end.

(** The body of the [try] block of [run_server]'s loop: one connection. *)
Definition handle_connection (a : arrival) : M world unit :=
  data <- accept_recv a PACKET_SIZE ;;
  request <- decode_request data ;;
  request_uri <- parse_request_line request ;;
  resolved <- get_request_data request_uri ;;
  let response :=
    match fst resolved with
    | _ :: _ => generate_ok_response (fst resolved) (snd resolved)
    | [] => generate_not_found_response
    end in
  client_send a response ;;
  client_close a.

(** Where the [while True] loop stands once the arrivals given to it are
    used up: blocked in [accept], or left through [break]. *)
Inductive loop_state : Type :=
| Listening
| Stopped.

(** The [while True] loop of [run_server], run on the arrivals that reach
    the listening socket. *)
Fixpoint accept_loop (arrivals : list arrival) : M world loop_state :=
  match arrivals with
  | [] => ret Listening
  | a :: rest =>
    again <- try_except
               (handle_connection a ;; ret true)
               is_KeyboardInterrupt
               (print "[!] Keyboard interrupt!" ;;
                emit SockClose ;;
                ret false) ;;
    if again : bool then accept_loop rest else ret Stopped
  end.

(** [run_server]. *)
Definition run_server (host : str) (port : Z) (arrivals : list arrival)
    : M world loop_state :=
  sock_bind host port ;;
  emit (SockSetTimeout 60) ;;
  emit (SockListen 10) ;;
  print ("[!] Server is listening on port " ++ str_of_int port ++ ".") ;;
  accept_loop arrivals.

Section Main.

(** The builtin [int] applied to a [str]: [None] stands for [ValueError]. *)
Variable py_int : str -> option Z.

(** The [__main__] block, for the argument vector [argv] ([sys.argv], the
    program name included). *)
Definition main (argv : list str) (arrivals : list arrival)
    : M world loop_state :=
  (if negb (Nat.eqb (List.length argv) 3) then
     print "USage: http-server.py <HOST> <PORT>" ;;
     sys_exit 1
   else ret tt) ;;
  host <- index argv 1 ;;
  port_arg <- index argv 2 ;;
  match py_int port_arg with
  | None => raise ValueError
  | Some port => run_server host port arrivals
  end.

End Main.

(** How the process stands after a run: still serving, ended with an exit
    status, or ended by an exception nobody caught (the interpreter prints a
    traceback and the status is not zero). *)
Inductive status : Type :=
| Serving
| Exit (code : Z)
| Uncaught (e : exn).

Definition status_of (r : result loop_state) : status :=
  match r with
  | Val Listening => Serving
  | Val Stopped => Exit 0
  | Raised (SystemExit code) => Exit code
  | Raised e => Uncaught e
  end.

(** A world with nothing done yet. *)
Definition boot (files : str -> node) (mimes : str -> option text * option text)
    : world :=
  {| fs := files; mime_db := mimes; bindable := fun _ _ => true; trace := [] |}.

(** ** Observations on runs *)

(** The world [w] after the further effects [es]. *)
Definition after (w : world) (es : list effect) : world :=
  {| fs := fs w; mime_db := mime_db w; bindable := bindable w;
     trace := trace w +++ es |}.

(** The path a file-system call is made on. *)
Definition fs_path (e : effect) : option str :=
  match e with
  | IsDir path | ListDir path | OpenRead path => Some path
  | _ => None
  end.

(** The responses handed to [client.send], in order. *)
Fixpoint sent (es : list effect) : list bytes :=
  match es with
  | [] => []
  | SockSend response :: rest => response :: sent rest
  | _ :: rest => sent rest
  end.

(** The arrival [a] is a client whose first packet decodes to a request
    line with method [GET] and target [uri]. *)
Definition requests (a : arrival) (uri : str) : Prop :=
  exists payload request more,
    a = Connection payload
    /\ decode (firstn PACKET_SIZE payload) = Some request
    /\ split SPACE request = "GET" :: uri :: more.

(** The arrival [a] is a client from which [payload] is received, whatever
    befalls its [send] or its [close]. *)
Definition carries (a : arrival) (payload : bytes) : Prop :=
  a = Connection payload
  \/ exists t : trouble, a = SendTrouble payload t \/ a = CloseTrouble payload t.

(** The number of line feeds in [data]: its lines, each ended by one. *)
Definition line_count (data : bytes) : nat :=
  List.length (List.filter (Byte.eqb x0a) data).

(** The lines the program prints before it exits. *)
Definition not_get_message : str :=
  "[!] Error: This server only handles GET requests.".
Definition usage_message : str := "USage: http-server.py <HOST> <PORT>".

(** The response to [a] in the world [w] is the success response carrying
    [content]: status line [HTTP/1.1 OK 200], some content type, the decimal
    length of [content] as [Content-Length], and [content] as the body. *)
Definition answered_with (w : world) (a : arrival) (content : bytes) : Prop :=
  exists ty : str,
    sent (trace (snd (handle_connection a w)))
    = sent (trace w)
      +++ [encode ("HTTP/1.1 OK 200" ++ CRLF ++ "Connection: close" ++ CRLF
                   ++ "Content-Type: " ++ ty ++ CRLF
                   ++ "Content-Length: " ++ str_of_nat (List.length content)
                   ++ CRLF ++ CRLF)
           +++ content].

(** The bytes the listing loop of [get_request_data] appends for [files]. *)
Definition listing_lines (files : list bytes) : bytes :=
  List.concat (List.map (fun file => file +++ encode NL) files).

(** *** Counting on traces *)

Definition is_accept (e : effect) : bool :=
  match e with SockAccept => true | _ => false end.

Definition is_client_close (e : effect) : bool :=
  match e with ClientClose => true | _ => false end.

Definition is_listener_close (e : effect) : bool :=
  match e with SockClose => true | _ => false end.

Definition is_bind (e : effect) : bool :=
  match e with SockBind _ _ => true | _ => false end.

(** How many of the effects [es] satisfy [p]. *)
Definition count (p : effect -> bool) (es : list effect) : nat :=
  List.length (List.filter p es).

(** [e] is no file-system call, or one on a path that begins with the name
    of the root directory. *)
Definition under_root (e : effect) : Prop :=
  match fs_path e with
  | Some path => exists rest : str, path = ROOT_DIR ++ rest
  | None => True
  end.

(** The two forms a response can have: the not-found response, or a success
    response whose body is not empty and whose [Content-Length] is the
    decimal length of that body. *)
Definition response_form (response : bytes) : Prop :=
  response = generate_not_found_response
  \/ exists (ty : str) (body : bytes),
       body <> []
       /\ response
          = encode ("HTTP/1.1 OK 200" ++ CRLF ++ "Connection: close" ++ CRLF
                    ++ "Content-Type: " ++ ty ++ CRLF
                    ++ "Content-Length: " ++ str_of_nat (List.length body)
                    ++ CRLF ++ CRLF)
            +++ body.

(** A world in which [bind] fails for every address. *)
Definition unbindable (w : world) : world :=
  {| fs := fs w; mime_db := mime_db w; bindable := fun _ _ => false;
     trace := trace w |}.

(** *** A sample site *)

Definition ends_with (suffix s : str) : bool :=
  let n := String.length s in
  let m := String.length suffix in
  (Nat.leb m n && String.eqb (substring (n - m) m s) suffix)%bool.

Definition site_files (path : str) : node :=
  if String.eqb path "public/index.html" then File (Some (encode "<h1>Hi</h1>"))
  else if String.eqb path "public/empty.txt" then File (Some [])
  else if String.eqb path "public/docs"
  then Directory (Some [encode "a.txt"; encode "b.txt"])
  else if String.eqb path "public/void" then Directory (Some [])
  else if String.eqb path "public/locked" then Directory None
  else if String.eqb path "public/secret.txt" then File None
  else if String.eqb path "public/odd"
  then Directory (Some [encode "a.txt"; [x62; xff]])
  else if String.eqb path "public/../etc/motd" then File (Some (encode "hello"))
  else Missing.

Definition site_mimes (path : str) : option text * option text :=
  if ends_with ".html" path then (Some (text_of "text/html"), None)
  else if ends_with ".txt" path then (Some (text_of "text/plain"), None)
  else (None, None).

Definition site : world := boot site_files site_mimes.

(** A client sending the request line [line] and an empty header block. *)
Definition client (line : str) : arrival :=
  Connection (encode (line ++ CRLF ++ CRLF)).

(** * Properties *)

(** ** Bytes and strings *)

Example split_request_line :
  split SPACE "GET /index.html HTTP/1.1" = ["GET"; "/index.html"; "HTTP/1.1"].
Proof. reflexivity. Qed.

Example split_keeps_empty_tokens :
  split SPACE "GET  /a " = ["GET"; ""; "/a"; ""] /\ split SPACE "" = [""].
Proof. split; reflexivity. Qed.

Example decode_is_strict :
  decode [x80] = None /\ decode [xc0; xaf] = None
  /\ decode [xed; xa0; x80] = None /\ decode [xc3] = None
  /\ decode [x47; x45; x54; xc3; xa9] <> None.
Proof. repeat split; try reflexivity. discriminate. Qed.

Example format_of_guess :
  format (MimePair (Some (text_of "text/html"), None)) = "('text/html', None)"
  /\ format (MimePair (None, Some (text_of "gzip"))) = "(None, 'gzip')"
  /\ format (MimeStr "text/plain") = "text/plain".
Proof. repeat split; reflexivity. Qed.

Example repr_escapes :
  repr_str [{| code := 160; printable := false |}] = "'\xa0'"
  /\ repr_str [{| code := 8232; printable := false |}] = "'\u2028'"
  /\ repr_str [{| code := 233; printable := true |}]
     = String SQUOTE (String (ascii_of_nat 195) (String (ascii_of_nat 169)
                                                   (String SQUOTE EmptyString)))
  /\ repr_str (text_of "it's") = String DQUOTE ("it's" ++ String DQUOTE EmptyString)
  /\ repr_str [{| code := 9; printable := false |}; {| code := 92; printable := true |}]
     = String SQUOTE (String BACKSLASH ("t" ++ String BACKSLASH
                        (String BACKSLASH (String SQUOTE EmptyString)))).
Proof. repeat split; reflexivity. Qed.

Example str_of_len : str_of_nat 0 = "0" /\ str_of_nat 1024 = "1024".
Proof. split; reflexivity. Qed.

Lemma encode_app (a b : str) : encode (a ++ b) = encode a +++ encode b.
Proof.
  unfold encode, list_byte_of_string.
  induction a as [| c a IH]; simpl; [reflexivity |].
  now rewrite IH.
Qed.

Lemma encode_length (s : str) : List.length (encode s) = String.length s.
Proof.
  unfold encode, list_byte_of_string.
  induction s as [| c s IH]; simpl; [reflexivity |].
  now rewrite IH.
Qed.

Lemma encode_nil (s : str) : encode s = [] -> s = "".
Proof. destruct s; [reflexivity | discriminate]. Qed.

Lemma append_assoc (a b c : str) : (a ++ b) ++ c = a ++ b ++ c.
Proof. induction a as [| d a IH]; simpl; [reflexivity | now rewrite IH]. Qed.

Lemma contains_app (c : ascii) (a b : str) :
  contains c (a ++ b) = (contains c a || contains c b)%bool.
Proof.
  induction a as [| d a IH]; simpl; [reflexivity |].
  now rewrite IH, orb_assoc.
Qed.

(** ** Tokens *)

Lemma split_not_nil (sep : ascii) (s : str) : split sep s <> [].
Proof.
  destruct s as [| c s]; simpl; [discriminate |].
  destruct (Ascii.eqb c sep); [discriminate |].
  destruct (split sep s); discriminate.
Qed.

(** A string without the separator is its own single token. *)
Lemma split_without (sep : ascii) (s : str) :
  contains sep s = false -> split sep s = [s].
Proof.
  induction s as [| c s IH]; simpl; [reflexivity |].
  intros H. apply orb_false_elim in H as [Hc Hs].
  rewrite Ascii.eqb_sym, Hc, (IH Hs). reflexivity.
Qed.

(** The first separator ends the first token. *)
Lemma split_at_first (sep : ascii) (tok rest : str) :
  contains sep tok = false ->
  split sep (tok ++ String sep rest) = tok :: split sep rest.
Proof.
  induction tok as [| c tok IH]; simpl; intros H.
  - now rewrite Ascii.eqb_refl.
  - apply orb_false_elim in H as [Hc Hs].
    rewrite Ascii.eqb_sym, Hc, (IH Hs). reflexivity.
Qed.

(** A single token is the whole string, which then has no separator. *)
Lemma split_single (sep : ascii) (s tok : str) :
  split sep s = [tok] -> s = tok /\ contains sep s = false.
Proof.
  revert tok. induction s as [| c s IH]; simpl; intros tok H.
  - inversion H. split; reflexivity.
  - rewrite (Ascii.eqb_sym sep c).
    destruct (Ascii.eqb c sep) eqn:Hc.
    + inversion H as [[Htok Hnil]]. now apply split_not_nil in Hnil.
    + destruct (split sep s) as [| t ts] eqn:Hs; [now apply split_not_nil in Hs |].
      inversion H; subst. destruct (IH t eq_refl) as [-> ->]. split; reflexivity.
Qed.

(** ** Worlds and traces *)

Lemma record_after (e : effect) (w : world) : record e w = after w [e].
Proof. reflexivity. Qed.

Lemma after_after (w : world) (es es' : list effect) :
  after (after w es) es' = after w (es +++ es').
Proof. unfold after; simpl. now rewrite app_assoc. Qed.

Lemma stat_after (w : world) (es : list effect) (path : str) :
  stat (after w es) path = stat w path.
Proof. reflexivity. Qed.

Lemma stat_found (w : world) (path : str) :
  stat w path <> Missing -> contains NUL path = false.
Proof. unfold stat. destruct (contains NUL path); congruence. Qed.

Lemma sent_app (es es' : list effect) :
  sent (es +++ es') = sent es +++ sent es'.
Proof.
  induction es as [| e es IH]; simpl; [reflexivity |].
  destruct e; simpl; now rewrite IH.
Qed.

(** ** The resolver, case by case *)

(** The listing loop over names that are all well-formed. *)
Lemma listing_loop (files : list bytes) (l : locals) (w : world) :
  forallb utf8_valid files = true ->
  for_each files (fun file =>
    line <- encode_line file ;;
    append_data line ;;
    set_mime_type (MimeStr "text/plain")) (l, w)
  = (Val tt,
     ({| request_data := request_data l +++ listing_lines files;
         request_mime_type :=
           match files with
           | [] => request_mime_type l
           | _ :: _ => MimeStr "text/plain"
           end |}, w)).
Proof.
  revert l. induction files as [| file files IH]; intros l Hv.
  - unfold listing_lines; simpl. rewrite app_nil_r. now destruct l.
  - cbn [forallb] in Hv. apply andb_prop in Hv as [Hf Hv].
    cbn [for_each]. unfold bind at 1. unfold bind at 1.
    unfold encode_line. rewrite Hf. unfold ret at 1.
    unfold bind at 1, append_data, set_mime_type, modify_locals at 1 2.
    cbn [fst snd request_data request_mime_type].
    rewrite (IH _ Hv). cbn [request_data request_mime_type].
    unfold listing_lines; simpl. rewrite <- !app_assoc.
    now destruct files.
Qed.

(** The listing loop over names of which one is not well-formed: the
    encoder's exception ends it. *)
Lemma listing_loop_bad (files : list bytes) (l : locals) (w : world) :
  forallb utf8_valid files = false ->
  exists l',
    for_each files (fun file =>
      line <- encode_line file ;;
      append_data line ;;
      set_mime_type (MimeStr "text/plain")) (l, w)
    = (Raised UnicodeEncodeError, (l', w)).
Proof.
  revert l. induction files as [| file files IH]; intros l Hv; [discriminate |].
  cbn [forallb] in Hv. cbn [for_each]. unfold bind at 1. unfold bind at 1.
  unfold encode_line. destruct (utf8_valid file) eqn:Hf.
  - unfold ret at 1.
    unfold bind at 1, append_data, set_mime_type, modify_locals at 1 2.
    cbn [fst snd request_data request_mime_type].
    cbn [andb] in Hv. exact (IH _ Hv).
  - exists l. reflexivity.
Qed.

Lemma stat_record (e : effect) (w : world) (path : str) :
  stat (record e w) path = stat w path.
Proof. reflexivity. Qed.

Lemma record_record (e e' : effect) (w : world) (es : list effect) :
  record e (after w es) = after w (es +++ [e]).
Proof. unfold record, after; simpl. now rewrite app_assoc. Qed.

(** Runs the straight-line part of a computation and leaves the tests on
    the world to the caller. *)
Ltac run :=
  cbv beta iota delta
    [get_request_data with_locals try_except bind ret raise lift get_locals
     modify_locals append_data set_mime_type os_path_isdir os_listdir
     open_read guess_type emit print is_OSError sys_exit index];
  cbn [fst snd request_data request_mime_type];
  repeat rewrite stat_record.

Ltac tidy :=
  repeat rewrite record_after; repeat rewrite after_after; cbn [app].

(** [run], resolving the tests on the path with the facts [H] (what it
    names) and [Hn] (whether it has a NUL). *)
Ltac run_with H Hn :=
  run;
  repeat (progress (repeat rewrite stat_record; rewrite ?H, ?Hn;
                    cbn [fst snd request_data request_mime_type])).

Lemma resolve_file (w : world) (uri : str) (content : bytes) :
  stat w (ROOT_DIR ++ uri) = File (Some content) ->
  get_request_data uri w
  = (Val (content, MimePair (mime_db w (ROOT_DIR ++ uri))),
     after w [IsDir (ROOT_DIR ++ uri); OpenRead (ROOT_DIR ++ uri)]).
Proof.
  intros H.
  assert (Hn : contains NUL (ROOT_DIR ++ uri) = false)
    by (apply (stat_found w); congruence).
  run_with H Hn. tidy. reflexivity.
Qed.

Lemma resolve_unopenable (w : world) (uri : str) :
  contains NUL (ROOT_DIR ++ uri) = false ->
  stat w (ROOT_DIR ++ uri) = Missing \/ stat w (ROOT_DIR ++ uri) = File None ->
  get_request_data uri w
  = (Val ([], MimeStr ""),
     after w [IsDir (ROOT_DIR ++ uri); OpenRead (ROOT_DIR ++ uri);
              PrintLine "[!] Error: File does not exist."]).
Proof.
  intros Hn [H | H]; run_with H Hn; tidy; reflexivity.
Qed.

Lemma resolve_nul (w : world) (uri : str) :
  contains NUL (ROOT_DIR ++ uri) = true ->
  get_request_data uri w
  = (Raised ValueError,
     after w [IsDir (ROOT_DIR ++ uri); OpenRead (ROOT_DIR ++ uri)]).
Proof.
  intros Hn. assert (H : stat w (ROOT_DIR ++ uri) = Missing)
    by (unfold stat; now rewrite Hn).
  run_with H Hn. tidy. reflexivity.
Qed.

Ltac fold_listing :=
  match goal with
  | |- context [for_each ?files ?body ?s] =>
    change (for_each files body s)
      with (for_each files (fun file =>
              line <- encode_line file ;;
              append_data line ;;
              set_mime_type (MimeStr "text/plain")) s)
  end.

Lemma resolve_directory (w : world) (uri : str) (files : list bytes) :
  stat w (ROOT_DIR ++ uri) = Directory (Some files) ->
  forallb utf8_valid files = true ->
  get_request_data uri w
  = (Val (encode ("Contents of " ++ (ROOT_DIR ++ uri) ++ NL ++ NL)
          +++ listing_lines files,
          match files with
          | [] => MimeStr ""
          | _ :: _ => MimeStr "text/plain"
          end),
     after w [IsDir (ROOT_DIR ++ uri); ListDir (ROOT_DIR ++ uri)]).
Proof.
  intros H Hv.
  assert (Hn : contains NUL (ROOT_DIR ++ uri) = false)
    by (apply (stat_found w); congruence).
  run_with H Hn. fold_listing. rewrite (listing_loop _ _ _ Hv).
  cbn [fst snd request_data request_mime_type app]. tidy. reflexivity.
Qed.

(** A directory with a name that is not well-formed UTF-8: the encoder's
    exception is no [OSError] and leaves the resolver. *)
Lemma resolve_directory_bad (w : world) (uri : str) (files : list bytes) :
  stat w (ROOT_DIR ++ uri) = Directory (Some files) ->
  forallb utf8_valid files = false ->
  get_request_data uri w
  = (Raised UnicodeEncodeError,
     after w [IsDir (ROOT_DIR ++ uri); ListDir (ROOT_DIR ++ uri)]).
Proof.
  intros H Hv.
  assert (Hn : contains NUL (ROOT_DIR ++ uri) = false)
    by (apply (stat_found w); congruence).
  run_with H Hn. fold_listing.
  match goal with
  | |- context [for_each files ?body (?l, ?w')] =>
    destruct (listing_loop_bad files l w' Hv) as [l' Hl']; rewrite Hl'
  end.
  cbn [fst snd]. tidy. reflexivity.
Qed.

(** A directory that can be listed, whatever its names. *)
Lemma resolve_listed (w : world) (uri : str) (files : list bytes) :
  stat w (ROOT_DIR ++ uri) = Directory (Some files) ->
  get_request_data uri w
  = (if forallb utf8_valid files
     then Val (encode ("Contents of " ++ (ROOT_DIR ++ uri) ++ NL ++ NL)
               +++ listing_lines files,
               match files with
               | [] => MimeStr ""
               | _ :: _ => MimeStr "text/plain"
               end)
     else Raised UnicodeEncodeError,
     after w [IsDir (ROOT_DIR ++ uri); ListDir (ROOT_DIR ++ uri)]).
Proof.
  intros H. destruct (forallb utf8_valid files) eqn:Hv.
  - exact (resolve_directory w uri files H Hv).
  - exact (resolve_directory_bad w uri files H Hv).
Qed.

Lemma resolve_unlistable (w : world) (uri : str) :
  stat w (ROOT_DIR ++ uri) = Directory None ->
  get_request_data uri w
  = (Val (encode ("Contents of " ++ (ROOT_DIR ++ uri) ++ NL ++ NL), MimeStr ""),
     after w [IsDir (ROOT_DIR ++ uri); ListDir (ROOT_DIR ++ uri);
              PrintLine "[!] Error: File does not exist."]).
Proof.
  intros H.
  assert (Hn : contains NUL (ROOT_DIR ++ uri) = false)
    by (apply (stat_found w); congruence).
  run_with H Hn. tidy. reflexivity.
Qed.

(** ** The parser *)

Lemma parse_get (w : world) (request uri : str) (more : list str) :
  split SPACE request = "GET" :: uri :: more ->
  parse_request_line request w = (Val uri, w).
Proof.
  intros H. unfold parse_request_line. rewrite H. reflexivity.
Qed.

Lemma parse_not_get (w : world) (request : str) :
  nth_error (split SPACE request) 0 <> Some "GET" ->
  parse_request_line request w
  = (Raised (SystemExit 1), after w [PrintLine not_get_message]).
Proof.
  intros H. unfold parse_request_line.
  destruct (split SPACE request) as [| method toks] eqn:Hs;
    [now apply split_not_nil in Hs |].
  cbn in H. run. cbn [nth_error].
  destruct (String.eqb method "GET") eqn:Hm.
  - apply String.eqb_eq in Hm. exfalso. apply H. now rewrite Hm.
  - reflexivity.
Qed.

Lemma parse_short (w : world) (request : str) :
  split SPACE request = ["GET"] ->
  parse_request_line request w = (Raised IndexError, w).
Proof.
  intros H. unfold parse_request_line. rewrite H. reflexivity.
Qed.

(** ** One connection *)

(** After [accept], [recv] and [decode], a connection is the parser and
    what follows it. *)
Lemma handle_decoded (w : world) (payload : bytes) (request : str) :
  decode (firstn PACKET_SIZE payload) = Some request ->
  handle_connection (Connection payload) w
  = (request_uri <- parse_request_line request ;;
     resolved <- get_request_data request_uri ;;
     emit (SockSend match fst resolved with
                    | _ :: _ => generate_ok_response (fst resolved) (snd resolved)
                    | [] => generate_not_found_response
                    end) ;;
     emit ClientClose) (after w [SockAccept; SockRecv PACKET_SIZE]).
Proof.
  intros H. unfold handle_connection, accept_recv, decode_request.
  unfold bind at 1. unfold bind at 1. unfold bind at 1.
  unfold emit at 1 2, ret at 1. rewrite H. unfold bind at 1, ret at 1.
  tidy. reflexivity.
Qed.

(** A request for [uri] runs the resolver and sends what the emptiness test
    on its bytes selects. *)
Lemma handle_resolved (w w' : world) (a : arrival) (uri : str)
    (data : bytes) (mime : mime_value) :
  requests a uri ->
  get_request_data uri (after w [SockAccept; SockRecv PACKET_SIZE])
  = (Val (data, mime), w') ->
  handle_connection a w
  = (Val tt,
     after w' [SockSend match data with
                        | _ :: _ => generate_ok_response data mime
                        | [] => generate_not_found_response
                        end; ClientClose]).
Proof.
  intros (payload & request & more & -> & Hd & Hs) Hr.
  rewrite (handle_decoded _ _ _ Hd).
  unfold bind at 1. rewrite (parse_get _ _ _ _ Hs).
  unfold bind at 1. rewrite Hr. cbn [fst snd].
  unfold bind, emit. tidy. reflexivity.
Qed.

(** ** The accept loop *)

Lemma accept_loop_served (w w' : world) (a : arrival) (rest : list arrival) :
  handle_connection a w = (Val tt, w') ->
  accept_loop (a :: rest) w = accept_loop rest w'.
Proof.
  intros H. cbn [accept_loop]. unfold bind at 1, try_except.
  unfold bind at 1. rewrite H. reflexivity.
Qed.

Lemma accept_loop_raised (w w' : world) (a : arrival) (rest : list arrival)
    (e : exn) :
  handle_connection a w = (Raised e, w') ->
  is_KeyboardInterrupt e = false ->
  accept_loop (a :: rest) w = (Raised e, w').
Proof.
  intros H He. cbn [accept_loop]. unfold bind at 1, try_except.
  unfold bind at 1. rewrite H, He. reflexivity.
Qed.

(** Arrivals behind a prefix are met only if the loop is still listening
    after the prefix. *)
Lemma accept_loop_app (before rest : list arrival) (w w1 : world) :
  accept_loop before w = (Val Listening, w1) ->
  accept_loop (before +++ rest) w = accept_loop rest w1.
Proof.
  revert w. induction before as [| a before IH]; intros w H.
  - cbn in H. inversion H. reflexivity.
  - cbn [app accept_loop] in *. unfold bind at 1 in H. unfold bind at 1.
    destruct (try_except _ _ _ w) as [[[] | e] w2].
    + now apply IH.
    + discriminate.
    + discriminate.
Qed.

(** ** The response builders *)

(** The success response, flattened, for any value of the content type. *)
Lemma ok_response_wire (body : bytes) (v : mime_value) :
  generate_ok_response body v
  = encode ("HTTP/1.1 OK 200" ++ CRLF ++ "Connection: close" ++ CRLF
            ++ "Content-Type: " ++ format v ++ CRLF
            ++ "Content-Length: " ++ str_of_nat (List.length body)
            ++ CRLF ++ CRLF)
    +++ body.
Proof.
  unfold generate_ok_response.
  repeat rewrite encode_app. repeat rewrite <- app_assoc. reflexivity.
Qed.

(** C6. For every body and every content-type label, the success response
    is byte for byte the status line [HTTP/1.1 OK 200] (reason before code),
    [Connection: close], [Content-Type: <label>], [Content-Length: <n>] with
    [n] the decimal byte length of the body, an empty line, and the body. *)
Theorem ok_response_bytes (body : bytes) (label : str) :
  generate_ok_response body (MimeStr label)
  = encode ("HTTP/1.1 OK 200" ++ CRLF ++ "Connection: close" ++ CRLF
            ++ "Content-Type: " ++ label ++ CRLF
            ++ "Content-Length: " ++ str_of_nat (List.length body)
            ++ CRLF ++ CRLF)
    +++ body.
Proof. exact (ok_response_wire body (MimeStr label)). Qed.

Example ok_response_sample :
  generate_ok_response (encode "abc") (MimeStr "text/plain")
  = encode ("HTTP/1.1 OK 200" ++ CRLF ++ "Connection: close" ++ CRLF
            ++ "Content-Type: text/plain" ++ CRLF
            ++ "Content-Length: 3" ++ CRLF ++ CRLF ++ "abc").
Proof. reflexivity. Qed.

(** The not-found response, flattened: the length field is the text between
    the braces of the source's literal. *)
Lemma not_found_response_wire :
  generate_not_found_response
  = encode ("HTTP/1.1 404 Not Found" ++ CRLF ++ "Connection: close" ++ CRLF
            ++ "Content-Type: text/html" ++ CRLF
            ++ "Content-Length: {len(not_found_page)}" ++ CRLF ++ CRLF
            ++ "<html><h1>Not found!</h1></html>").
Proof. reflexivity. Qed.

(** C1, at the request [GET /missing.html HTTP/1.1] for a path that names
    nothing: the response has the fixed body, status and content type, but
    its [Content-Length] field is the uninterpolated text
    [{len(not_found_page)}], not the length 32 of the body. *)
Theorem not_found_length_is_placeholder :
  stat site (ROOT_DIR ++ "/missing.html") = Missing
  /\ sent (trace (snd (handle_connection (client "GET /missing.html HTTP/1.1") site)))
     = [encode ("HTTP/1.1 404 Not Found" ++ CRLF ++ "Connection: close" ++ CRLF
                ++ "Content-Type: text/html" ++ CRLF
                ++ "Content-Length: {len(not_found_page)}" ++ CRLF ++ CRLF
                ++ "<html><h1>Not found!</h1></html>")]
  /\ List.length (encode "<html><h1>Not found!</h1></html>") = 32
  /\ generate_not_found_response
     <> encode ("HTTP/1.1 404 Not Found" ++ CRLF ++ "Connection: close" ++ CRLF
                ++ "Content-Type: text/html" ++ CRLF
                ++ "Content-Length: 32" ++ CRLF ++ CRLF
                ++ "<html><h1>Not found!</h1></html>").
Proof.
  repeat split; try reflexivity. vm_compute. discriminate.
Qed.

(** ** Files *)

(** A request for a readable file: the resolver's pair, and the response
    the emptiness test selects for it. *)
Lemma handle_file (w : world) (a : arrival) (uri : str) (content : bytes) :
  requests a uri ->
  stat w (ROOT_DIR ++ uri) = File (Some content) ->
  handle_connection a w
  = (Val tt,
     after w [SockAccept; SockRecv PACKET_SIZE;
              IsDir (ROOT_DIR ++ uri); OpenRead (ROOT_DIR ++ uri);
              SockSend match content with
                       | _ :: _ =>
                         generate_ok_response content
                           (MimePair (mime_db w (ROOT_DIR ++ uri)))
                       | [] => generate_not_found_response
                       end;
              ClientClose]).
Proof.
  intros Ha Hf.
  rewrite (handle_resolved w _ a uri content
             (MimePair (mime_db w (ROOT_DIR ++ uri))) Ha
             (resolve_file (after w [SockAccept; SockRecv PACKET_SIZE])
                uri content Hf)).
  tidy. reflexivity.
Qed.

(** C2, as the code has it: for every valid GET request whose target names
    an existing regular file that can be read and is not empty, the
    connection ends normally and its response is the success response with
    the file's exact byte length as [Content-Length] and the file's bytes as
    the body. *)
Theorem nonempty_file_is_served (w : world) (a : arrival) (uri : str)
    (content : bytes) :
  requests a uri ->
  stat w (ROOT_DIR ++ uri) = File (Some content) ->
  content <> [] ->
  fst (handle_connection a w) = Val tt /\ answered_with w a content.
Proof.
  intros Ha Hf Hne. rewrite (handle_file w a uri content Ha Hf).
  split; [reflexivity |].
  exists (format (MimePair (mime_db w (ROOT_DIR ++ uri)))).
  rewrite (handle_file w a uri content Ha Hf).
  cbn [snd after trace]. rewrite sent_app. f_equal.
  destruct content as [| b content]; [contradiction |].
  cbn [sent]. now rewrite ok_response_wire.
Qed.

Lemma nonempty_file_is_served_witness :
  answered_with site (client "GET /index.html HTTP/1.1") (encode "<h1>Hi</h1>").
Proof.
  apply (nonempty_file_is_served site (client "GET /index.html HTTP/1.1")
           "/index.html" (encode "<h1>Hi</h1>")).
  - exists (encode ("GET /index.html HTTP/1.1" ++ CRLF ++ CRLF)),
      ("GET /index.html HTTP/1.1" ++ CRLF ++ CRLF), ["HTTP/1.1" ++ CRLF ++ CRLF].
    repeat split; reflexivity.
  - reflexivity.
  - discriminate.
Defined.

(** C2 as stated fails on an empty file: the file exists and the request is
    a valid GET for it, yet the response is not a success response. *)
Lemma empty_file_is_not_served :
  stat site (ROOT_DIR ++ "/empty.txt") = File (Some [])
  /\ requests (client "GET /empty.txt HTTP/1.1") "/empty.txt"
  /\ ~ answered_with site (client "GET /empty.txt HTTP/1.1") []
  /\ sent (trace (snd (handle_connection (client "GET /empty.txt HTTP/1.1") site)))
     = [generate_not_found_response].
Proof.
  split; [reflexivity |]. split; [| split; [| reflexivity]].
  - exists (encode ("GET /empty.txt HTTP/1.1" ++ CRLF ++ CRLF)),
      ("GET /empty.txt HTTP/1.1" ++ CRLF ++ CRLF), ["HTTP/1.1" ++ CRLF ++ CRLF].
    repeat split; reflexivity.
  - intros [ty H].
    change (sent (trace (snd (handle_connection
                                (client "GET /empty.txt HTTP/1.1") site))))
      with [generate_not_found_response] in H.
    cbn in H. discriminate H.
Qed.

(** ** Requests the parser refuses *)

(** C3. A request whose first space-separated token is not exactly [GET]
    makes the parser print its error line and raise [SystemExit 1]; in the
    accept loop nothing catches it, so the process ends with exit status 1
    and none of the later arrivals is accepted. *)
Theorem non_get_request_ends_process (before rest : list arrival)
    (w w1 : world) (payload : bytes) (request : str) :
  accept_loop before w = (Val Listening, w1) ->
  decode (firstn PACKET_SIZE payload) = Some request ->
  nth_error (split SPACE request) 0 <> Some "GET" ->
  (forall w', parse_request_line request w'
              = (Raised (SystemExit 1), after w' [PrintLine not_get_message]))
  /\ accept_loop (before +++ Connection payload :: rest) w
     = (Raised (SystemExit 1),
        after w1 [SockAccept; SockRecv PACKET_SIZE; PrintLine not_get_message])
  /\ status_of (fst (accept_loop (before +++ Connection payload :: rest) w))
     = Exit 1.
Proof.
  intros Hb Hd Hm.
  assert (Hrun : accept_loop (before +++ Connection payload :: rest) w
                 = (Raised (SystemExit 1),
                    after w1 [SockAccept; SockRecv PACKET_SIZE;
                              PrintLine not_get_message])).
  { rewrite (accept_loop_app _ _ _ _ Hb).
    apply accept_loop_raised; [| reflexivity].
    rewrite (handle_decoded _ _ _ Hd). unfold bind at 1.
    rewrite (parse_not_get _ _ Hm). tidy. reflexivity. }
  split; [intros w'; now apply parse_not_get |].
  split; [exact Hrun | now rewrite Hrun].
Qed.

Lemma non_get_request_ends_process_witness :
  status_of (fst (accept_loop [client "GET /index.html HTTP/1.1";
                               client "POST / HTTP/1.1";
                               client "GET /index.html HTTP/1.1"] site))
  = Exit 1.
Proof.
  apply (non_get_request_ends_process
           [client "GET /index.html HTTP/1.1"]
           [client "GET /index.html HTTP/1.1"]
           site
           (snd (accept_loop [client "GET /index.html HTTP/1.1"] site))
           (encode ("POST / HTTP/1.1" ++ CRLF ++ CRLF))
           ("POST / HTTP/1.1" ++ CRLF ++ CRLF)).
  - reflexivity.
  - reflexivity.
  - vm_compute. discriminate.
Defined.

(** C8. A request line with fewer than two space-separated tokens whose
    first token is [GET] makes the parser raise [IndexError] without
    printing or returning a URI; in the accept loop nothing catches it and
    no response is sent. *)
Theorem short_get_line_raises_index_error (rest : list arrival) (w : world)
    (payload : bytes) (request : str) :
  decode (firstn PACKET_SIZE payload) = Some request ->
  List.length (split SPACE request) < 2 ->
  nth_error (split SPACE request) 0 = Some "GET" ->
  (forall w', parse_request_line request w' = (Raised IndexError, w'))
  /\ accept_loop (Connection payload :: rest) w
     = (Raised IndexError, after w [SockAccept; SockRecv PACKET_SIZE])
  /\ sent (trace (snd (accept_loop (Connection payload :: rest) w)))
     = sent (trace w).
Proof.
  intros Hd Hlen Hm.
  assert (Hs : split SPACE request = ["GET"]).
  { destruct (split SPACE request) as [| t [| u ts]]; cbn in *.
    - discriminate.
    - now inversion Hm.
    - lia. }
  assert (Hrun : accept_loop (Connection payload :: rest) w
                 = (Raised IndexError, after w [SockAccept; SockRecv PACKET_SIZE])).
  { apply accept_loop_raised; [| reflexivity].
    rewrite (handle_decoded _ _ _ Hd). unfold bind at 1.
    now rewrite (parse_short _ _ Hs). }
  split; [intros w'; now apply parse_short |].
  split; [exact Hrun |].
  rewrite Hrun. cbn [snd after trace]. rewrite sent_app. cbn [sent].
  now rewrite app_nil_r.
Qed.

Lemma short_get_line_raises_index_error_witness :
  accept_loop [Connection (encode "GET"); client "GET /index.html HTTP/1.1"] site
  = (Raised IndexError, after site [SockAccept; SockRecv PACKET_SIZE]).
Proof.
  apply (short_get_line_raises_index_error
           [client "GET /index.html HTTP/1.1"] site (encode "GET") "GET").
  - reflexivity.
  - simpl. lia.
  - reflexivity.
Defined.

(** The request lines of C8 are exactly the bare method. *)
Lemma short_get_line_is_bare (request : str) :
  List.length (split SPACE request) < 2 ->
  nth_error (split SPACE request) 0 = Some "GET" ->
  request = "GET".
Proof.
  intros Hlen Hm.
  destruct (split SPACE request) as [| t [| u ts]] eqn:Hs; cbn in *.
  - discriminate.
  - inversion Hm; subst. now apply split_single in Hs.
  - lia.
Qed.

(** ** The command line *)

(** C9. With an argument vector of any length but three (program name, host
    and port), the program prints the usage line and raises [SystemExit 1]
    at once: the exit status is 1 and the only effect is the printed line,
    so no socket is bound. *)
Theorem wrong_argument_count_exits (py_int : str -> option Z)
    (argv : list str) (arrivals : list arrival) (w : world) :
  List.length argv <> 3 ->
  main py_int argv arrivals w
  = (Raised (SystemExit 1), after w [PrintLine usage_message])
  /\ status_of (fst (main py_int argv arrivals w)) = Exit 1
  /\ (forall host port,
        In (SockBind host port) (trace (snd (main py_int argv arrivals w))) ->
        In (SockBind host port) (trace w)).
Proof.
  intros Hlen.
  assert (Hrun : main py_int argv arrivals w
                 = (Raised (SystemExit 1), after w [PrintLine usage_message])).
  { unfold main. unfold bind at 1.
    apply Nat.eqb_neq in Hlen. rewrite Hlen. reflexivity. }
  rewrite Hrun. split; [reflexivity |]. split; [reflexivity |].
  intros host port Hin. cbn [snd after trace] in Hin.
  apply in_app_or in Hin as [Hin | [Hin | []]]; [exact Hin | discriminate].
Qed.

Lemma wrong_argument_count_exits_witness :
  main (fun _ => Some 8080%Z) ["http-server.py"; "localhost"]
       [client "GET /index.html HTTP/1.1"] site
  = (Raised (SystemExit 1), after site [PrintLine usage_message]).
Proof.
  apply (wrong_argument_count_exits (fun _ => Some 8080%Z)
           ["http-server.py"; "localhost"]
           [client "GET /index.html HTTP/1.1"] site).
  simpl. lia.
Defined.

(** With exactly two arguments and a port that [int] accepts, the program
    is [run_server] on them. *)
Lemma two_arguments_start_server (py_int : str -> option Z)
    (prog host port_arg : str) (port : Z) (arrivals : list arrival) (w : world) :
  py_int port_arg = Some port ->
  main py_int [prog; host; port_arg] arrivals w = run_server host port arrivals w.
Proof.
  intros Hp. unfold main. cbv [bind index ret].
  cbn [List.length Nat.eqb negb nth_error]. now rewrite Hp.
Qed.

Example server_session :
  let run := main (fun _ => Some 8080%Z) ["http-server.py"; "localhost"; "8080"]
                  [client "GET /index.html HTTP/1.1"; Interrupt] site in
  status_of (fst run) = Exit 0
  /\ trace (snd run)
     = [SockBind "localhost" 8080; SockSetTimeout 60; SockListen 10;
        PrintLine "[!] Server is listening on port 8080.";
        SockAccept; SockRecv 1024;
        IsDir "public/index.html"; OpenRead "public/index.html";
        SockSend (encode ("HTTP/1.1 OK 200" ++ CRLF ++ "Connection: close" ++ CRLF
                          ++ "Content-Type: ('text/html', None)" ++ CRLF
                          ++ "Content-Length: 11" ++ CRLF ++ CRLF
                          ++ "<h1>Hi</h1>"));
        ClientClose; PrintLine "[!] Keyboard interrupt!"; SockClose].
Proof. split; reflexivity. Qed.

(** ** Directories *)

Lemma line_count_app (a b : bytes) :
  line_count (a +++ b) = line_count a + line_count b.
Proof. unfold line_count. now rewrite filter_app, length_app. Qed.

Lemma line_count_text (s : str) :
  contains LF s = false -> line_count (encode s) = 0.
Proof.
  unfold line_count, encode, list_byte_of_string.
  induction s as [| c s IH]; simpl; [reflexivity |].
  intros H. apply orb_false_elim in H as [Hc Hs].
  destruct (Byte.eqb x0a (byte_of_ascii c)) eqn:Hb; [| now apply IH].
  apply Byte.byte_dec_bl in Hb.
  assert (Hlf : c = LF) by (now rewrite <- (ascii_of_byte_of_ascii c), <- Hb).
  subst c. discriminate.
Qed.

(** A text without line feed, followed by one, is one line. *)
Lemma line_count_line (s : str) :
  contains LF s = false -> line_count (encode (s ++ NL)) = 1.
Proof.
  intros H. now rewrite encode_app, line_count_app, (line_count_text _ H).
Qed.

Lemma line_count_listing (files : list bytes) :
  Forall (fun file => line_count file = 0) files ->
  line_count (listing_lines files) = List.length files.
Proof.
  unfold listing_lines.
  induction 1 as [| file files Hf _ IH]; simpl; [reflexivity |].
  rewrite !line_count_app, Hf, IH. reflexivity.
Qed.

(** A request for a directory that can be listed and whose names are
    well-formed: the body is the header line, an empty line and one line per
    entry; the content type is [text/plain] when the loop over the entries
    ran at least once. *)
Lemma handle_directory (w : world) (a : arrival) (uri : str) (files : list bytes) :
  requests a uri ->
  stat w (ROOT_DIR ++ uri) = Directory (Some files) ->
  forallb utf8_valid files = true ->
  handle_connection a w
  = (Val tt,
     after w [SockAccept; SockRecv PACKET_SIZE;
              IsDir (ROOT_DIR ++ uri); ListDir (ROOT_DIR ++ uri);
              SockSend (generate_ok_response
                          (encode ("Contents of " ++ (ROOT_DIR ++ uri) ++ NL ++ NL)
                           +++ listing_lines files)
                          match files with
                          | [] => MimeStr ""
                          | _ :: _ => MimeStr "text/plain"
                          end);
              ClientClose]).
Proof.
  intros Ha Hd Hv.
  rewrite (handle_resolved w _ a uri _ _ Ha
             (resolve_directory (after w [SockAccept; SockRecv PACKET_SIZE])
                uri files Hd Hv)).
  tidy. reflexivity.
Qed.

(** The listing of a directory has two lines more than the directory has
    entries, when neither the path nor an entry's name has a line feed. *)
Lemma listing_line_count (path : str) (files : list bytes) :
  contains LF path = false ->
  Forall (fun file => line_count file = 0) files ->
  line_count (encode ("Contents of " ++ path ++ NL ++ NL) +++ listing_lines files)
  = List.length files + 2.
Proof.
  intros Hp Hf.
  rewrite line_count_app, (line_count_listing _ Hf).
  change ("Contents of " ++ path ++ NL ++ NL)
    with (("Contents of " ++ path) ++ NL ++ NL).
  rewrite encode_app, line_count_app, line_count_text.
  - cbn. lia.
  - now rewrite contains_app, Hp.
Qed.

(** X19. A directory with at least one entry, all of whose names are
    well-formed UTF-8, is answered as plain text; when neither the URI nor a
    name has a line feed the body has as many lines as the directory has
    entries, and two. *)
Lemma nonempty_directory_listing (w : world) (a : arrival) (uri : str)
    (file : bytes) (files : list bytes) :
  requests a uri ->
  stat w (ROOT_DIR ++ uri) = Directory (Some (file :: files)) ->
  forallb utf8_valid (file :: files) = true ->
  contains LF uri = false ->
  Forall (fun f => line_count f = 0) (file :: files) ->
  exists body,
    handle_connection a w
    = (Val tt,
       after w [SockAccept; SockRecv PACKET_SIZE;
                IsDir (ROOT_DIR ++ uri); ListDir (ROOT_DIR ++ uri);
                SockSend (generate_ok_response body (MimeStr "text/plain"));
                ClientClose])
    /\ line_count body = List.length (file :: files) + 2.
Proof.
  intros Ha Hd Hv Hu Hf. eexists. split.
  - exact (handle_directory w a uri (file :: files) Ha Hd Hv).
  - apply listing_line_count; [| exact Hf].
    now rewrite contains_app, Hu.
Qed.

(** C4, at the request [GET /void HTTP/1.1] for an existing directory
    without entries: the body has the two lines of header and blank, but the
    content type is the empty text the resolver starts from, because
    [text/plain] is assigned inside the loop over the entries. *)
Theorem empty_directory_has_no_content_type :
  stat site (ROOT_DIR ++ "/void") = Directory (Some [])
  /\ fst (get_request_data "/void" site)
     = Val (encode ("Contents of public/void" ++ NL ++ NL), MimeStr "")
  /\ line_count (encode ("Contents of public/void" ++ NL ++ NL)) = 0 + 2
  /\ sent (trace (snd (handle_connection (client "GET /void HTTP/1.1") site)))
     = [encode ("HTTP/1.1 OK 200" ++ CRLF ++ "Connection: close" ++ CRLF
                ++ "Content-Type: " ++ CRLF
                ++ "Content-Length: 25" ++ CRLF ++ CRLF
                ++ "Contents of public/void" ++ NL ++ NL)].
Proof. repeat split; reflexivity. Qed.

Example directory_listing_sample :
  sent (trace (snd (handle_connection (client "GET /docs HTTP/1.1") site)))
  = [encode ("HTTP/1.1 OK 200" ++ CRLF ++ "Connection: close" ++ CRLF
             ++ "Content-Type: text/plain" ++ CRLF
             ++ "Content-Length: 37" ++ CRLF ++ CRLF
             ++ "Contents of public/docs" ++ NL ++ NL
             ++ "a.txt" ++ NL ++ "b.txt" ++ NL)].
Proof. reflexivity. Qed.

(** ** The not-found signal *)

(** X17. The resolver returns empty bytes with the empty label exactly when the
    path is no directory and cannot be opened and read. *)
Lemma empty_pair_iff_unopenable (w : world) (uri : str) :
  fst (get_request_data uri w) = Val ([], MimeStr "")
  <-> contains NUL (ROOT_DIR ++ uri) = false
      /\ (stat w (ROOT_DIR ++ uri) = Missing
          \/ stat w (ROOT_DIR ++ uri) = File None).
Proof.
  destruct (contains NUL (ROOT_DIR ++ uri)) eqn:Hn.
  - rewrite (resolve_nul w uri Hn). split; [discriminate | intros [? _]; discriminate].
  - destruct (stat w (ROOT_DIR ++ uri)) as [| [content |] | [files |]] eqn:Hs.
    + rewrite (resolve_unopenable w uri Hn (or_introl Hs)). tauto.
    + rewrite (resolve_file w uri content Hs).
      split; [discriminate | intros [_ [? | ?]]; discriminate].
    + rewrite (resolve_unopenable w uri Hn (or_intror Hs)). tauto.
    + rewrite (resolve_listed w uri files Hs).
      destruct (forallb utf8_valid files);
        (split; [discriminate | intros [_ [? | ?]]; discriminate]).
    + rewrite (resolve_unlistable w uri Hs).
      split; [discriminate | intros [_ [? | ?]]; discriminate].
Qed.

(** X16. Whenever the resolver returns empty bytes, the response is the
    not-found response and the loop goes on to the next arrival. *)
Lemma empty_bytes_answered_not_found (w w' : world) (a : arrival) (uri : str)
    (mime : mime_value) (rest : list arrival) :
  requests a uri ->
  get_request_data uri (after w [SockAccept; SockRecv PACKET_SIZE])
  = (Val ([], mime), w') ->
  accept_loop (a :: rest) w
  = accept_loop rest (after w' [SockSend generate_not_found_response; ClientClose]).
Proof.
  intros Ha Hr. apply accept_loop_served.
  exact (handle_resolved w w' a uri [] mime Ha Hr).
Qed.

(** C5, at the request [GET /locked HTTP/1.1] for an existing directory
    whose listing the system refuses: the [OSError] is caught and the error
    line printed, but the header line was appended before [listdir] was
    called, so the resolver returns bytes that are not empty and the
    response is a success response, not the not-found one. *)
Theorem unlistable_directory_is_answered_ok :
  stat site (ROOT_DIR ++ "/locked") = Directory None
  /\ get_request_data "/locked" site
     = (Val (encode ("Contents of public/locked" ++ NL ++ NL), MimeStr ""),
        after site [IsDir "public/locked"; ListDir "public/locked";
                    PrintLine "[!] Error: File does not exist."])
  /\ sent (trace (snd (handle_connection (client "GET /locked HTTP/1.1") site)))
     = [encode ("HTTP/1.1 OK 200" ++ CRLF ++ "Connection: close" ++ CRLF
                ++ "Content-Type: " ++ CRLF
                ++ "Content-Length: 27" ++ CRLF ++ CRLF
                ++ "Contents of public/locked" ++ NL ++ NL)]
  /\ sent (trace (snd (handle_connection (client "GET /locked HTTP/1.1") site)))
     <> [generate_not_found_response].
Proof.
  repeat split; try reflexivity. vm_compute. discriminate.
Qed.

(** ** Paths *)

(** C7. For every URI the resolver's first act is a lookup of the root
    directory's name with the URI appended verbatim, and every file-system
    call it makes is on that same string.  No URI is refused or rewritten,
    one with [..] segments no more than another: what the resolver returns
    is what the system finds at that string, the content of a file, the
    listing of a directory, or the empty pair of a path that cannot be
    opened. *)
Theorem resolver_looks_up_root_plus_uri (w : world) (uri : str) :
  (exists calls : list effect,
     trace (snd (get_request_data uri w))
     = trace w +++ IsDir ("public" ++ uri) :: calls
     /\ Forall (fun e => fs_path e = None \/ fs_path e = Some ("public" ++ uri))
               calls)
  /\ (forall content : bytes,
        stat w ("public" ++ uri) = File (Some content) ->
        fst (get_request_data uri w)
        = Val (content, MimePair (mime_db w ("public" ++ uri))))
  /\ (forall files : list bytes,
        stat w ("public" ++ uri) = Directory (Some files) ->
        forallb utf8_valid files = true ->
        fst (get_request_data uri w)
        = Val (encode ("Contents of " ++ ("public" ++ uri) ++ NL ++ NL)
               +++ listing_lines files,
               match files with
               | [] => MimeStr ""
               | _ :: _ => MimeStr "text/plain"
               end))
  /\ (contains NUL uri = false ->
      stat w ("public" ++ uri) = Missing \/ stat w ("public" ++ uri) = File None ->
      fst (get_request_data uri w) = Val ([], MimeStr "")).
Proof.
  change ("public" ++ uri) with (ROOT_DIR ++ uri).
  split; [| split; [| split]].
  - destruct (contains NUL (ROOT_DIR ++ uri)) eqn:Hn.
    + rewrite (resolve_nul w uri Hn). eexists; split; [reflexivity |].
      repeat constructor; now right.
    + destruct (stat w (ROOT_DIR ++ uri)) as [| [content |] | [files |]] eqn:Hs.
      * rewrite (resolve_unopenable w uri Hn (or_introl Hs)).
        eexists; split; [reflexivity |].
        repeat constructor; (now right) || (now left).
      * rewrite (resolve_file w uri content Hs). eexists; split; [reflexivity |].
        repeat constructor; now right.
      * rewrite (resolve_unopenable w uri Hn (or_intror Hs)).
        eexists; split; [reflexivity |].
        repeat constructor; (now right) || (now left).
      * rewrite (resolve_listed w uri files Hs). eexists; split; [reflexivity |].
        repeat constructor; now right.
      * rewrite (resolve_unlistable w uri Hs). eexists; split; [reflexivity |].
        repeat constructor; (now right) || (now left).
  - intros content Hs. now rewrite (resolve_file w uri content Hs).
  - intros files Hs Hv. now rewrite (resolve_directory w uri files Hs Hv).
  - intros Hn Hs.
    assert (Hp : contains NUL (ROOT_DIR ++ uri) = false)
      by (now rewrite contains_app, Hn).
    now rewrite (resolve_unopenable w uri Hp Hs).
Qed.

Lemma resolver_looks_up_root_plus_uri_witness :
  fst (get_request_data "/../etc/motd" site)
  = Val (encode "hello", MimePair (mime_db site "public/../etc/motd")).
Proof.
  apply (proj1 (proj2 (resolver_looks_up_root_plus_uri site "/../etc/motd"))).
  reflexivity.
Defined.

(** What the resolver returns is decided by what the system finds at that
    string, and by the type table's entry for it. *)
Lemma resolver_depends_on_path_only (w1 w2 : world) (uri : str) :
  stat w1 (ROOT_DIR ++ uri) = stat w2 (ROOT_DIR ++ uri) ->
  mime_db w1 (ROOT_DIR ++ uri) = mime_db w2 (ROOT_DIR ++ uri) ->
  fst (get_request_data uri w1) = fst (get_request_data uri w2).
Proof.
  intros Hs Hm.
  destruct (contains NUL (ROOT_DIR ++ uri)) eqn:Hn.
  - now rewrite (resolve_nul w1 uri Hn), (resolve_nul w2 uri Hn).
  - destruct (stat w2 (ROOT_DIR ++ uri)) as [| [content |] | [files |]] eqn:H2.
    + now rewrite (resolve_unopenable w1 uri Hn (or_introl Hs)),
        (resolve_unopenable w2 uri Hn (or_introl H2)).
    + rewrite (resolve_file w1 uri content Hs), (resolve_file w2 uri content H2).
      cbn [fst]. now rewrite Hm.
    + now rewrite (resolve_unopenable w1 uri Hn (or_intror Hs)),
        (resolve_unopenable w2 uri Hn (or_intror H2)).
    + now rewrite (resolve_listed w1 uri files Hs),
        (resolve_listed w2 uri files H2).
    + now rewrite (resolve_unlistable w1 uri Hs), (resolve_unlistable w2 uri H2).
Qed.

Example traversal_leaves_root :
  get_request_data "/../etc/motd" site
  = (Val (encode "hello", MimePair (None, None)),
     after site [IsDir "public/../etc/motd"; OpenRead "public/../etc/motd"]).
Proof. reflexivity. Qed.

(** ** The content type of a file *)

(** C10, as the code has it: for every path that names a regular file that
    can be opened and read, the content type the resolver returns is the
    pair [(type, encoding)] of the guesser, not a [str]; the success
    response built from it carries the text of that pair, as [repr] writes
    it, in its [Content-Type] field, and that response is the one sent for a
    request of the file when it is not empty. *)
Theorem file_content_type_is_guess_pair (w : world) (uri : str)
    (content : bytes) :
  stat w (ROOT_DIR ++ uri) = File (Some content) ->
  let guess := mime_db w (ROOT_DIR ++ uri) in
  fst (get_request_data uri w) = Val (content, MimePair guess)
  /\ (forall label : str,
        fst (get_request_data uri w) <> Val (content, MimeStr label))
  /\ generate_ok_response content (MimePair guess)
     = encode ("HTTP/1.1 OK 200" ++ CRLF ++ "Connection: close" ++ CRLF
               ++ "Content-Type: ("
               ++ repr_opt (fst guess) ++ ", " ++ repr_opt (snd guess) ++ ")"
               ++ CRLF
               ++ "Content-Length: " ++ str_of_nat (List.length content)
               ++ CRLF ++ CRLF)
       +++ content
  /\ (forall a : arrival,
        requests a uri ->
        content <> [] ->
        sent (trace (snd (handle_connection a w)))
        = sent (trace w) +++ [generate_ok_response content (MimePair guess)]).
Proof.
  intros Hf guess. rewrite (resolve_file w uri content Hf). fold guess.
  split; [reflexivity |]. split; [discriminate |]. split.
  - rewrite ok_response_wire. unfold format.
    destruct guess as [ty enc]. cbn [fst snd].
    do 2 f_equal. repeat rewrite append_assoc. reflexivity.
  - intros a Ha Hne. rewrite (handle_file w a uri content Ha Hf).
    cbn [snd after trace]. rewrite sent_app. f_equal.
    destruct content as [| b content]; [contradiction | reflexivity].
Qed.

Lemma file_content_type_is_guess_pair_witness :
  sent (trace (snd (handle_connection (client "GET /index.html HTTP/1.1") site)))
  = [encode ("HTTP/1.1 OK 200" ++ CRLF ++ "Connection: close" ++ CRLF
             ++ "Content-Type: ('text/html', None)" ++ CRLF
             ++ "Content-Length: 11" ++ CRLF ++ CRLF ++ "<h1>Hi</h1>")].
Proof.
  destruct (file_content_type_is_guess_pair site "/index.html"
              (encode "<h1>Hi</h1>") eq_refl) as (_ & _ & _ & Hsent).
  apply (Hsent (client "GET /index.html HTTP/1.1")).
  - exists (encode ("GET /index.html HTTP/1.1" ++ CRLF ++ CRLF)),
      ("GET /index.html HTTP/1.1" ++ CRLF ++ CRLF), ["HTTP/1.1" ++ CRLF ++ CRLF].
    repeat split; reflexivity.
  - discriminate.
Defined.

(** C10 as stated fails on a file that exists and cannot be read: [open]
    raises [OSError], the handler leaves the content type as the empty [str]
    it started from, which is no pair, and the request is answered with the
    not-found response. *)
Lemma unreadable_file_has_no_guess_pair :
  stat site (ROOT_DIR ++ "/secret.txt") = File None
  /\ fst (get_request_data "/secret.txt" site) = Val ([], MimeStr "")
  /\ (forall (content : bytes) (guess : option text * option text),
        fst (get_request_data "/secret.txt" site)
        <> Val (content, MimePair guess))
  /\ sent (trace (snd (handle_connection (client "GET /secret.txt HTTP/1.1")
                                         site)))
     = [generate_not_found_response].
Proof.
  split; [reflexivity |]. split; [reflexivity |]. split; [| reflexivity].
  intros content guess H.
  change (fst (get_request_data "/secret.txt" site))
    with (@Val (bytes * mime_value) ([], MimeStr "")) in H.
  discriminate H.
Qed.

(** * Further properties *)

(** ** Every outcome of one connection *)

Lemma after_nil (w : world) : after w [] = w.
Proof. destruct w; unfold after; simpl. now rewrite app_nil_r. Qed.

Lemma count_app (p : effect -> bool) (es es' : list effect) :
  count p (es +++ es') = count p es + count p es'.
Proof. unfold count. now rewrite filter_app, length_app. Qed.

Lemma handle_undecodable (w : world) (payload : bytes) :
  decode (firstn PACKET_SIZE payload) = None ->
  handle_connection (Connection payload) w
  = (Raised UnicodeDecodeError, after w [SockAccept; SockRecv PACKET_SIZE]).
Proof.
  intros H. unfold handle_connection, accept_recv, decode_request.
  unfold bind at 1. unfold bind at 1. unfold bind at 1.
  unfold emit at 1 2, ret at 1. rewrite H. unfold bind at 1, raise.
  tidy. reflexivity.
Qed.

(** An exception that leaves the resolver leaves the connection. *)
Lemma handle_resolver_raised (w w' : world) (a : arrival) (uri : str) (e : exn) :
  requests a uri ->
  get_request_data uri (after w [SockAccept; SockRecv PACKET_SIZE])
  = (Raised e, w') ->
  handle_connection a w = (Raised e, w').
Proof.
  intros (payload & request & more & -> & Hd & Hs) Hr.
  rewrite (handle_decoded _ _ _ Hd).
  unfold bind at 1. rewrite (parse_get _ _ _ _ Hs).
  unfold bind at 1. now rewrite Hr.
Qed.

Lemma handle_not_get (w : world) (payload : bytes) (request : str) :
  decode (firstn PACKET_SIZE payload) = Some request ->
  nth_error (split SPACE request) 0 <> Some "GET" ->
  handle_connection (Connection payload) w
  = (Raised (SystemExit 1),
     after w [SockAccept; SockRecv PACKET_SIZE; PrintLine not_get_message]).
Proof.
  intros Hd Hm. rewrite (handle_decoded _ _ _ Hd). unfold bind at 1.
  rewrite (parse_not_get _ _ Hm). tidy. reflexivity.
Qed.

Lemma handle_short (w : world) (payload : bytes) (request : str) :
  decode (firstn PACKET_SIZE payload) = Some request ->
  split SPACE request = ["GET"] ->
  handle_connection (Connection payload) w
  = (Raised IndexError, after w [SockAccept; SockRecv PACKET_SIZE]).
Proof.
  intros Hd Hs. rewrite (handle_decoded _ _ _ Hd). unfold bind at 1.
  now rewrite (parse_short _ _ Hs).
Qed.

Lemma handle_nul (w : world) (a : arrival) (uri : str) :
  requests a uri ->
  contains NUL (ROOT_DIR ++ uri) = true ->
  handle_connection a w
  = (Raised ValueError,
     after w [SockAccept; SockRecv PACKET_SIZE;
              IsDir (ROOT_DIR ++ uri); OpenRead (ROOT_DIR ++ uri)]).
Proof.
  intros Ha Hn.
  rewrite (handle_resolver_raised w _ a uri ValueError Ha
             (resolve_nul (after w [SockAccept; SockRecv PACKET_SIZE]) uri Hn)).
  tidy. reflexivity.
Qed.

Lemma handle_unopenable (w : world) (a : arrival) (uri : str) :
  requests a uri ->
  contains NUL (ROOT_DIR ++ uri) = false ->
  stat w (ROOT_DIR ++ uri) = Missing \/ stat w (ROOT_DIR ++ uri) = File None ->
  handle_connection a w
  = (Val tt,
     after w [SockAccept; SockRecv PACKET_SIZE;
              IsDir (ROOT_DIR ++ uri); OpenRead (ROOT_DIR ++ uri);
              PrintLine "[!] Error: File does not exist.";
              SockSend generate_not_found_response; ClientClose]).
Proof.
  intros Ha Hn Hs.
  rewrite (handle_resolved w _ a uri _ _ Ha
             (resolve_unopenable (after w [SockAccept; SockRecv PACKET_SIZE])
                uri Hn Hs)).
  tidy. reflexivity.
Qed.

Lemma handle_unlistable (w : world) (a : arrival) (uri : str) :
  requests a uri ->
  stat w (ROOT_DIR ++ uri) = Directory None ->
  handle_connection a w
  = (Val tt,
     after w [SockAccept; SockRecv PACKET_SIZE;
              IsDir (ROOT_DIR ++ uri); ListDir (ROOT_DIR ++ uri);
              PrintLine "[!] Error: File does not exist.";
              SockSend (generate_ok_response
                          (encode ("Contents of " ++ (ROOT_DIR ++ uri) ++ NL ++ NL))
                          (MimeStr ""));
              ClientClose]).
Proof.
  intros Ha Hs.
  rewrite (handle_resolved w _ a uri _ _ Ha
             (resolve_unlistable (after w [SockAccept; SockRecv PACKET_SIZE])
                uri Hs)).
  tidy. reflexivity.
Qed.

Lemma under_root_call (uri : str) :
  under_root (IsDir (ROOT_DIR ++ uri))
  /\ under_root (ListDir (ROOT_DIR ++ uri))
  /\ under_root (OpenRead (ROOT_DIR ++ uri)).
Proof. repeat split; now exists uri. Qed.

Lemma ok_response_form (body : bytes) (v : mime_value) :
  body <> [] -> response_form (generate_ok_response body v).
Proof.
  intros H. right. exists (format v), body. split; [exact H |].
  apply ok_response_wire.
Qed.

(** Settles the facts about a list of effects that is known but for the
    path and the response in it. *)
Ltac effects_facts uri :=
  repeat match goal with
         | |- _ /\ _ => split
         | |- Forall response_form (sent _) => progress cbn [sent]
         | |- Forall _ [] => constructor
         | |- Forall _ (_ :: _) => constructor
         | |- under_root (IsDir _) => apply (under_root_call uri)
         | |- under_root (ListDir _) => apply (under_root_call uri)
         | |- under_root (OpenRead _) => apply (under_root_call uri)
         | |- under_root _ => exact I
         | |- response_form generate_not_found_response => now left
         | |- response_form (generate_ok_response _ _) =>
           apply ok_response_form; discriminate
         | |- _ = _ => reflexivity
         | |- _ <= _ => cbn; lia
         | |- _ -> _ => first [discriminate | intros _; reflexivity]
         end.

(** Brings the world reached to the form [after w (es0 +++ es)]. *)
Ltac settle := tidy; rewrite <- ?app_assoc; cbn [app]; reflexivity.

(** What is received from a client does not depend on what befalls its
    [send] or its [close] afterwards. *)
Lemma carried_decoded (w : world) (a : arrival) (payload : bytes)
    (request : str) :
  carries a payload ->
  decode (firstn PACKET_SIZE payload) = Some request ->
  handle_connection a w
  = (request_uri <- parse_request_line request ;;
     resolved <- get_request_data request_uri ;;
     client_send a match fst resolved with
                   | _ :: _ => generate_ok_response (fst resolved) (snd resolved)
                   | [] => generate_not_found_response
                   end ;;
     client_close a) (after w [SockAccept; SockRecv PACKET_SIZE]).
Proof.
  intros [-> | [t [-> | ->]]] H;
    unfold handle_connection, accept_recv, decode_request;
    unfold bind at 1; unfold bind at 1; unfold bind at 1;
    unfold emit at 1 2, ret at 1; rewrite H; unfold bind at 1, ret at 1;
    tidy; reflexivity.
Qed.

Lemma carried_undecodable (w : world) (a : arrival) (payload : bytes) :
  carries a payload ->
  decode (firstn PACKET_SIZE payload) = None ->
  handle_connection a w
  = (Raised UnicodeDecodeError, after w [SockAccept; SockRecv PACKET_SIZE]).
Proof.
  intros [-> | [t [-> | ->]]] H;
    unfold handle_connection, accept_recv, decode_request;
    unfold bind at 1; unfold bind at 1; unfold bind at 1;
    unfold emit at 1 2, ret at 1; rewrite H; unfold bind at 1, raise;
    tidy; reflexivity.
Qed.

Lemma carried_not_get (w : world) (a : arrival) (payload : bytes)
    (request : str) :
  carries a payload ->
  decode (firstn PACKET_SIZE payload) = Some request ->
  nth_error (split SPACE request) 0 <> Some "GET" ->
  handle_connection a w
  = (Raised (SystemExit 1),
     after w [SockAccept; SockRecv PACKET_SIZE; PrintLine not_get_message]).
Proof.
  intros Hc Hd Hm. rewrite (carried_decoded _ _ _ _ Hc Hd). unfold bind at 1.
  rewrite (parse_not_get _ _ Hm). tidy. reflexivity.
Qed.

Lemma carried_short (w : world) (a : arrival) (payload : bytes)
    (request : str) :
  carries a payload ->
  decode (firstn PACKET_SIZE payload) = Some request ->
  split SPACE request = ["GET"] ->
  handle_connection a w
  = (Raised IndexError, after w [SockAccept; SockRecv PACKET_SIZE]).
Proof.
  intros Hc Hd Hs. rewrite (carried_decoded _ _ _ _ Hc Hd). unfold bind at 1.
  now rewrite (parse_short _ _ Hs).
Qed.

(** What the resolver returns goes to [send] and [close]. *)
Lemma carried_resolved (w w' : world) (a : arrival) (payload : bytes)
    (request uri : str) (more : list str) (data : bytes) (mime : mime_value) :
  carries a payload ->
  decode (firstn PACKET_SIZE payload) = Some request ->
  split SPACE request = "GET" :: uri :: more ->
  get_request_data uri (after w [SockAccept; SockRecv PACKET_SIZE])
  = (Val (data, mime), w') ->
  handle_connection a w
  = (client_send a match data with
                   | _ :: _ => generate_ok_response data mime
                   | [] => generate_not_found_response
                   end ;;
     client_close a) w'.
Proof.
  intros Hc Hd Hs Hr. rewrite (carried_decoded _ _ _ _ Hc Hd).
  unfold bind at 1. rewrite (parse_get _ _ _ _ Hs).
  unfold bind at 1. rewrite Hr. reflexivity.
Qed.

(** What the resolver raises leaves the connection before [send]. *)
Lemma carried_raised (w w' : world) (a : arrival) (payload : bytes)
    (request uri : str) (more : list str) (e : exn) :
  carries a payload ->
  decode (firstn PACKET_SIZE payload) = Some request ->
  split SPACE request = "GET" :: uri :: more ->
  get_request_data uri (after w [SockAccept; SockRecv PACKET_SIZE])
  = (Raised e, w') ->
  handle_connection a w = (Raised e, w').
Proof.
  intros Hc Hd Hs Hr. rewrite (carried_decoded _ _ _ _ Hc Hd).
  unfold bind at 1. rewrite (parse_get _ _ _ _ Hs).
  unfold bind at 1. now rewrite Hr.
Qed.

(** A listing with a name that is not well-formed ends the connection with
    the encoder's exception: nothing is sent and the client is not closed. *)
Lemma handle_bad_listing (w : world) (a : arrival) (uri : str)
    (files : list bytes) :
  requests a uri ->
  stat w (ROOT_DIR ++ uri) = Directory (Some files) ->
  forallb utf8_valid files = false ->
  handle_connection a w
  = (Raised UnicodeEncodeError,
     after w [SockAccept; SockRecv PACKET_SIZE;
              IsDir (ROOT_DIR ++ uri); ListDir (ROOT_DIR ++ uri)]).
Proof.
  intros Ha Hs Hv.
  rewrite (handle_resolver_raised w _ a uri UnicodeEncodeError Ha
             (resolve_directory_bad (after w [SockAccept; SockRecv PACKET_SIZE])
                uri files Hs Hv)).
  tidy. reflexivity.
Qed.

(** One connection up to [send], whatever was received and whatever the
    world holds: either an exception other than the interrupt ends it, or a
    response of one of the two forms is ready.  The effects do not depend on
    the effects before them. *)
Lemma served_outcome (a : arrival) (payload : bytes) (w : world) :
  carries a payload ->
  exists (r : result bytes) (es : list effect),
    (Forall under_root es /\ sent es = [] /\ count is_accept es = 1
     /\ count is_client_close es = 0 /\ count is_listener_close es = 0
     /\ count is_bind es = 0)
    /\ match r with
       | Val response =>
         response_form response
         /\ forall es0,
              handle_connection a (after w es0)
              = (client_send a response ;; client_close a)
                  (after w (es0 +++ es))
       | Raised e =>
         is_KeyboardInterrupt e = false
         /\ forall es0,
              handle_connection a (after w es0)
              = (Raised e, after w (es0 +++ es))
       end.
Proof.
  intros Hc.
  destruct (decode (firstn PACKET_SIZE payload)) as [request |] eqn:Hd.
  - destruct (String.eqb_spec
                (match split SPACE request with m :: _ => m | [] => "" end)
                "GET") as [Hm | Hm].
    + destruct (split SPACE request) as [| m [| uri more]] eqn:Hs.
      { now apply split_not_nil in Hs. }
      { subst m. exists (Raised IndexError), [SockAccept; SockRecv PACKET_SIZE].
        split; [effects_facts "" |]. split; [reflexivity |].
        intros es0. rewrite (carried_short _ _ _ _ Hc Hd Hs). settle. }
      subst m.
      destruct (contains NUL (ROOT_DIR ++ uri)) eqn:Hn.
      { exists (Raised ValueError),
          [SockAccept; SockRecv PACKET_SIZE;
           IsDir (ROOT_DIR ++ uri); OpenRead (ROOT_DIR ++ uri)].
        split; [effects_facts uri |]. split; [reflexivity |].
        intros es0.
        rewrite (carried_raised (after w es0) _ a payload request uri more
                   ValueError Hc Hd Hs (resolve_nul (after (after w es0) [SockAccept; SockRecv PACKET_SIZE])
                      uri Hn)).
        settle. }
      destruct (stat w (ROOT_DIR ++ uri)) as [| [content |] | [files |]] eqn:Hst.
      { exists (Val generate_not_found_response),
          [SockAccept; SockRecv PACKET_SIZE;
           IsDir (ROOT_DIR ++ uri); OpenRead (ROOT_DIR ++ uri);
           PrintLine "[!] Error: File does not exist."].
        split; [effects_facts uri |]. split; [now left |].
        intros es0.
        rewrite (carried_resolved (after w es0) _ a payload request uri more
                   _ _ Hc Hd Hs
                   (resolve_unopenable (after (after w es0) [SockAccept; SockRecv PACKET_SIZE])
                      uri Hn (or_introl Hst))).
        settle. }
      { exists (Val match content with
                    | _ :: _ =>
                      generate_ok_response content
                        (MimePair (mime_db w (ROOT_DIR ++ uri)))
                    | [] => generate_not_found_response
                    end),
          [SockAccept; SockRecv PACKET_SIZE;
           IsDir (ROOT_DIR ++ uri); OpenRead (ROOT_DIR ++ uri)].
        split; [effects_facts uri |]. split.
        - destruct content; [now left | now apply ok_response_form].
        - intros es0.
          rewrite (carried_resolved (after w es0) _ a payload request uri more
                     _ _ Hc Hd Hs (resolve_file (after (after w es0) [SockAccept; SockRecv PACKET_SIZE])
                      uri content Hst)).
          settle. }
      { exists (Val generate_not_found_response),
          [SockAccept; SockRecv PACKET_SIZE;
           IsDir (ROOT_DIR ++ uri); OpenRead (ROOT_DIR ++ uri);
           PrintLine "[!] Error: File does not exist."].
        split; [effects_facts uri |]. split; [now left |].
        intros es0.
        rewrite (carried_resolved (after w es0) _ a payload request uri more
                   _ _ Hc Hd Hs
                   (resolve_unopenable (after (after w es0) [SockAccept; SockRecv PACKET_SIZE])
                      uri Hn (or_intror Hst))).
        settle. }
      { destruct (forallb utf8_valid files) eqn:Hv.
        - exists (Val (generate_ok_response
                         (encode ("Contents of " ++ (ROOT_DIR ++ uri) ++ NL ++ NL)
                          +++ listing_lines files)
                         match files with
                         | [] => MimeStr ""
                         | _ :: _ => MimeStr "text/plain"
                         end)),
            [SockAccept; SockRecv PACKET_SIZE;
             IsDir (ROOT_DIR ++ uri); ListDir (ROOT_DIR ++ uri)].
          split; [effects_facts uri |]. split.
          + apply ok_response_form. discriminate.
          + intros es0.
            rewrite (carried_resolved (after w es0) _ a payload request uri
                       more _ _ Hc Hd Hs
                       (resolve_directory (after (after w es0) [SockAccept; SockRecv PACKET_SIZE])
                      uri files Hst Hv)).
            settle.
        - exists (Raised UnicodeEncodeError),
            [SockAccept; SockRecv PACKET_SIZE;
             IsDir (ROOT_DIR ++ uri); ListDir (ROOT_DIR ++ uri)].
          split; [effects_facts uri |]. split; [reflexivity |].
          intros es0.
          rewrite (carried_raised (after w es0) _ a payload request uri more
                     UnicodeEncodeError Hc Hd Hs
                     (resolve_directory_bad (after (after w es0) [SockAccept; SockRecv PACKET_SIZE])
                      uri files Hst Hv)).
          settle. }
      { exists (Val (generate_ok_response
                       (encode ("Contents of " ++ (ROOT_DIR ++ uri) ++ NL ++ NL))
                       (MimeStr ""))),
          [SockAccept; SockRecv PACKET_SIZE;
           IsDir (ROOT_DIR ++ uri); ListDir (ROOT_DIR ++ uri);
           PrintLine "[!] Error: File does not exist."].
        split; [effects_facts uri |]. split.
        - apply ok_response_form. discriminate.
        - intros es0.
          rewrite (carried_resolved (after w es0) _ a payload request uri more
                     _ _ Hc Hd Hs (resolve_unlistable (after (after w es0) [SockAccept; SockRecv PACKET_SIZE])
                      uri Hst)).
          settle. }
    + assert (Hg : nth_error (split SPACE request) 0 <> Some "GET").
      { destruct (split SPACE request) as [| m toks]; cbn; [discriminate |].
        intros Heq. apply Hm. now inversion Heq. }
      exists (Raised (SystemExit 1)),
        [SockAccept; SockRecv PACKET_SIZE; PrintLine not_get_message].
      split; [effects_facts "" |]. split; [reflexivity |].
      intros es0. rewrite (carried_not_get _ _ _ _ Hc Hd Hg). settle.
  - exists (Raised UnicodeDecodeError), [SockAccept; SockRecv PACKET_SIZE].
    split; [effects_facts "" |]. split; [reflexivity |].
    intros es0. rewrite (carried_undecodable _ _ _ Hc Hd). settle.
Qed.

(** [send] and [close], whatever befalls them: the response is handed to
    [send] once, and [close] is called unless [send] raised. *)
Lemma finish_outcome (a : arrival) (response : bytes) :
  exists (r : result unit) (es : list effect),
    (forall w, (client_send a response ;; client_close a) w = (r, after w es))
    /\ Forall under_root es
    /\ sent es = [response]
    /\ count is_accept es = 0
    /\ count is_listener_close es = 0
    /\ count is_bind es = 0
    /\ count is_client_close es <= 1
    /\ (r = Val tt -> count is_client_close es = 1).
Proof.
  destruct a as [payload | | | t | payload t | payload t].
  1-4: exists (Val tt), [SockSend response; ClientClose];
    (split; [intros w; cbv [client_send client_close bind emit ret raise]; tidy;
             reflexivity | effects_facts ""]).
  - exists (Raised (raised_by t)), [SockSend response].
    split; [intros w; cbv [client_send client_close bind emit ret raise]; tidy;
            reflexivity | effects_facts ""].
  - exists (Raised (raised_by t)), [SockSend response; ClientClose].
    split; [intros w; cbv [client_send client_close bind emit ret raise]; tidy;
            reflexivity | effects_facts ""].
Qed.

(** One connection from which a payload is received. *)
Lemma carried_outcome (a : arrival) (payload : bytes) (w : world) :
  carries a payload ->
  exists (r : result unit) (es : list effect),
    (forall es0, handle_connection a (after w es0) = (r, after w (es0 +++ es)))
    /\ Forall under_root es
    /\ Forall response_form (sent es)
    /\ count is_listener_close es = 0
    /\ count is_bind es = 0
    /\ count is_client_close es <= List.length (sent es)
    /\ List.length (sent es) <= count is_accept es
    /\ count is_accept es <= 1
    /\ (r = Val tt -> count is_client_close es = 1).
Proof.
  intros Hc.
  destruct (served_outcome a payload w Hc)
    as ([response | e] & es & (Hroot & Hsent & Hacc & Hclose & Hlisten & Hbind)
        & Hr).
  - destruct Hr as [Hform Hrun].
    destruct (finish_outcome a response)
      as (r & es' & Hfin & Hroot' & Hsent' & Hacc' & Hlisten' & Hbind'
          & Hclose' & Hval).
    exists r, (es +++ es'). split.
    + intros es0. rewrite Hrun, Hfin, after_after, app_assoc. reflexivity.
    + rewrite sent_app, !count_app, Hsent, Hsent'. cbn [app List.length].
      repeat split; try lia.
      * now apply Forall_app.
      * constructor; [exact Hform | constructor].
      * intros Hv. specialize (Hval Hv). lia.
  - destruct Hr as [_ Hrun]. exists (Raised e), es. split; [exact Hrun |].
    rewrite Hsent. cbn [List.length].
    repeat split; try lia; try assumption; try constructor. discriminate.
Qed.

(** One connection, whatever arrives, whatever befalls it and whatever the
    world holds: the result and the effects do not depend on the effects
    before them; a response is handed to [send] at most once, after one
    [accept], and [close] is called at most once, after [send]. *)
Lemma connection_outcome (a : arrival) (w : world) :
  exists (r : result unit) (es : list effect),
    (forall es0, handle_connection a (after w es0) = (r, after w (es0 +++ es)))
    /\ Forall under_root es
    /\ Forall response_form (sent es)
    /\ count is_listener_close es = 0
    /\ count is_bind es = 0
    /\ count is_client_close es <= List.length (sent es)
    /\ List.length (sent es) <= count is_accept es
    /\ count is_accept es <= 1
    /\ (r = Val tt -> count is_client_close es = 1).
Proof.
  destruct a as [payload | | | t | payload t | payload t].
  - apply (carried_outcome _ payload). now left.
  - exists (Raised KeyboardInterrupt), []. split.
    + intros es0. now rewrite app_nil_r.
    + effects_facts "".
  - exists (Raised SocketTimeout), []. split.
    + intros es0. now rewrite app_nil_r.
    + effects_facts "".
  - exists (Raised (raised_by t)), [SockAccept; SockRecv PACKET_SIZE]. split.
    + intros es0. cbv [handle_connection accept_recv bind emit raise]. tidy.
      reflexivity.
    + effects_facts "".
  - apply (carried_outcome _ payload). right. exists t. now left.
  - apply (carried_outcome _ payload). right. exists t. now right.
Qed.

(** ** Every outcome of the accept loop *)

Lemma accept_loop_interrupted (w w' : world) (a : arrival) (rest : list arrival) :
  handle_connection a w = (Raised KeyboardInterrupt, w') ->
  accept_loop (a :: rest) w
  = (Val Stopped, after w' [PrintLine "[!] Keyboard interrupt!"; SockClose]).
Proof.
  intros H. cbn [accept_loop]. unfold bind at 1, try_except.
  unfold bind at 1. rewrite H. cbn [is_KeyboardInterrupt].
  unfold bind, print, emit, ret. tidy. reflexivity.
Qed.

Example interrupt_after_accept :
  accept_loop [RecvTrouble OperatorInterrupt; client "GET /index.html HTTP/1.1"]
    site
  = (Val Stopped,
     after site [SockAccept; SockRecv 1024;
                 PrintLine "[!] Keyboard interrupt!"; SockClose]).
Proof. reflexivity. Qed.

Example reset_in_send :
  let run := accept_loop [SendTrouble (encode "GET /nothing HTTP/1.1") PeerReset;
                          client "GET /index.html HTTP/1.1"] site in
  fst run = Raised OSError
  /\ trace (snd run)
     = [SockAccept; SockRecv 1024; IsDir "public/nothing";
        OpenRead "public/nothing"; PrintLine "[!] Error: File does not exist.";
        SockSend generate_not_found_response].
Proof. split; reflexivity. Qed.

Example ill_formed_name_ends_server :
  accept_loop [client "GET /odd HTTP/1.1"; client "GET /index.html HTTP/1.1"]
    site
  = (Raised UnicodeEncodeError,
     after site [SockAccept; SockRecv 1024; IsDir "public/odd";
                 ListDir "public/odd"]).
Proof. reflexivity. Qed.

(** The loop on any arrivals in any world: what it does is independent of
    the effects before it, and the counts of its effects are tied to each
    other. *)
Lemma loop_outcome (arrivals : list arrival) (w : world) :
  exists (r : result loop_state) (es : list effect),
    (forall es0, accept_loop arrivals (after w es0) = (r, after w (es0 +++ es)))
    /\ Forall under_root es
    /\ Forall response_form (sent es)
    /\ count is_bind es = 0
    /\ count is_listener_close es
       = match r with Val Stopped => 1 | _ => 0 end
    /\ count is_client_close es <= List.length (sent es)
    /\ List.length (sent es) <= count is_accept es
    /\ count is_accept es <= S (count is_client_close es)
    /\ (r = Val Listening -> count is_client_close es = count is_accept es).
Proof.
  induction arrivals as [| a rest IH].
  - exists (Val Listening), []. split.
    + intros es0. now rewrite app_nil_r.
    + effects_facts "".
  - destruct (connection_outcome a w)
      as (ra & ea & Hrun & Hroot & Hform & Hlisten & Hbind & Hclose & Hsent
          & Hacc & Hval).
    destruct ra as [[] | e].
    + destruct IH as (r & es & Hloop & Hroot' & Hform' & Hbind' & Hlisten'
                      & Hclose' & Hsent' & Hacc' & Hval').
      specialize (Hval eq_refl).
      exists r, (ea +++ es). split.
      * intros es0. rewrite (accept_loop_served _ _ _ _ (Hrun es0)).
        rewrite Hloop. now rewrite app_assoc.
      * rewrite sent_app, !count_app, length_app.
        repeat split; try lia.
        -- now apply Forall_app.
        -- now apply Forall_app.
        -- intros Hr. specialize (Hval' Hr). lia.
    + destruct (is_KeyboardInterrupt e) eqn:He.
      * destruct e; try discriminate.
        exists (Val Stopped),
          (ea +++ [PrintLine "[!] Keyboard interrupt!"; SockClose]).
        split.
        -- intros es0. rewrite (accept_loop_interrupted _ _ _ _ (Hrun es0)).
           rewrite after_after, app_assoc. reflexivity.
        -- rewrite sent_app, !count_app. cbn [sent count filter List.length
             is_bind is_listener_close is_client_close is_accept app].
           rewrite app_nil_r.
           repeat split; try lia; try assumption.
           ++ apply Forall_app. split; [assumption | now repeat constructor].
           ++ discriminate.
      * exists (Raised e), ea. split.
        -- intros es0. exact (accept_loop_raised _ _ _ _ _ (Hrun es0) He).
        -- repeat split; try lia; try assumption. discriminate.
Qed.

(** The loop in a world as it stands. *)
Lemma loop_outcome_here (arrivals : list arrival) (w : world) :
  exists es : list effect,
    snd (accept_loop arrivals w) = after w es
    /\ Forall under_root es
    /\ Forall response_form (sent es)
    /\ count is_bind es = 0
    /\ count is_listener_close es
       = match fst (accept_loop arrivals w) with Val Stopped => 1 | _ => 0 end
    /\ count is_client_close es <= List.length (sent es)
    /\ List.length (sent es) <= count is_accept es
    /\ count is_accept es <= S (count is_client_close es)
    /\ (fst (accept_loop arrivals w) = Val Listening ->
        count is_client_close es = count is_accept es).
Proof.
  destruct (loop_outcome arrivals w) as (r & es & Hloop & H).
  specialize (Hloop []). rewrite after_nil in Hloop. cbn [app] in Hloop.
  exists es. rewrite Hloop. cbn [fst snd]. split; [reflexivity | exact H].
Qed.

(** X1. Whatever arrives and whatever befalls the calls on a client's
    socket, the server calls [close] on a client only after it has handed a
    response to [send], and hands a response to [send] only for a connection
    it has accepted, each at most once: there are no more [close]s than
    [send]s and no more [send]s than [accept]s.  At most one accepted
    connection, the last, is left without its [close]; and as long as the
    loop is listening every accepted connection has had its response and
    its [close]. *)
Theorem one_response_per_connection (arrivals : list arrival) (w : world) :
  exists es : list effect,
    trace (snd (accept_loop arrivals w)) = trace w +++ es
    /\ count is_client_close es <= List.length (sent es)
    /\ List.length (sent es) <= count is_accept es
    /\ count is_accept es <= S (count is_client_close es)
    /\ (fst (accept_loop arrivals w) = Val Listening ->
        count is_client_close es = List.length (sent es)
        /\ List.length (sent es) = count is_accept es).
Proof.
  destruct (loop_outcome_here arrivals w)
    as (es & Hw & _ & _ & _ & _ & Hclose & Hsent & Hacc & Hval).
  exists es. rewrite Hw.
  split; [reflexivity |]. split; [exact Hclose |]. split; [exact Hsent |].
  split; [exact Hacc |].
  intros Hl. specialize (Hval Hl). lia.
Qed.

(** X3. Whatever arrives, every file-system call of the server is made on a
    path that begins with the name of the root directory. *)
Theorem file_system_calls_start_at_root (arrivals : list arrival) (w : world) :
  exists es : list effect,
    trace (snd (accept_loop arrivals w)) = trace w +++ es
    /\ Forall (fun e => forall path, fs_path e = Some path ->
                        exists rest, path = "public" ++ rest) es.
Proof.
  destruct (loop_outcome_here arrivals w) as (es & Hw & Hroot & _).
  exists es. rewrite Hw. split; [reflexivity |].
  eapply Forall_impl; [| exact Hroot].
  intros e He path Hp. unfold under_root in He. now rewrite Hp in He.
Qed.

(** X2. Whatever arrives, every response the server sends is the not-found
    response or a success response with a body that is not empty and a
    [Content-Length] equal to the length of that body. *)
Theorem responses_have_two_forms (arrivals : list arrival) (w : world) :
  exists es : list effect,
    trace (snd (accept_loop arrivals w)) = trace w +++ es
    /\ Forall response_form (sent es).
Proof.
  destruct (loop_outcome_here arrivals w) as (es & Hw & _ & Hform & _).
  exists es. now rewrite Hw.
Qed.

(** X4. The listening socket is closed exactly on the way out through the
    interrupt handler: not while the loop is listening, and not when an
    exception ends it. *)
Theorem listener_closed_only_on_interrupt (arrivals : list arrival) (w : world) :
  exists es : list effect,
    trace (snd (accept_loop arrivals w)) = trace w +++ es
    /\ count is_listener_close es
       = match fst (accept_loop arrivals w) with Val Stopped => 1 | _ => 0 end.
Proof.
  destruct (loop_outcome_here arrivals w) as (es & Hw & _ & _ & _ & Hl & _).
  exists es. now rewrite Hw.
Qed.

(** X6. A connection that was served is served in the same way when it comes
    again: the two responses are the same bytes. *)
Theorem repeated_request_same_response (a : arrival) (w : world) :
  fst (handle_connection a w) = Val tt ->
  exists response : bytes,
    sent (trace (snd (handle_connection a w))) = sent (trace w) +++ [response]
    /\ sent (trace (snd (accept_loop [a; a] w)))
       = sent (trace w) +++ [response; response]
    /\ fst (accept_loop [a; a] w) = Val Listening.
Proof.
  intros Hserved.
  destruct (connection_outcome a w)
    as (r & es & Hrun & _ & _ & _ & _ & Hclose & Hle & Hacc & Hval).
  pose proof (Hrun []) as Hhere. rewrite after_nil in Hhere. cbn [app] in Hhere.
  rewrite Hhere in Hserved. cbn [fst] in Hserved. subst r.
  specialize (Hval eq_refl).
  destruct (sent es) as [| response [| ? ?]] eqn:Hsent; cbn in Hclose, Hle;
    try lia.
  exists response.
  assert (Htwice : accept_loop [a; a] w = (Val Listening, after w (es +++ es))).
  { rewrite (accept_loop_served _ _ _ _ Hhere).
    pose proof (Hrun es) as Hagain.
    rewrite (accept_loop_served _ _ _ _ Hagain). reflexivity. }
  rewrite Hhere, Htwice. cbn [fst snd after trace].
  rewrite !sent_app, Hsent. repeat split.
Qed.

Lemma repeated_request_same_response_witness :
  sent (trace (snd (accept_loop [client "GET /docs HTTP/1.1";
                                 client "GET /docs HTTP/1.1"] site)))
  = [generate_ok_response
       (encode ("Contents of public/docs" ++ NL ++ NL ++ "a.txt" ++ NL
                ++ "b.txt" ++ NL))
       (MimeStr "text/plain");
     generate_ok_response
       (encode ("Contents of public/docs" ++ NL ++ NL ++ "a.txt" ++ NL
                ++ "b.txt" ++ NL))
       (MimeStr "text/plain")].
Proof.
  destruct (repeated_request_same_response (client "GET /docs HTTP/1.1") site
              eq_refl) as (response & Hone & Htwo & _).
  rewrite Htwo. cbn in Hone. inversion Hone. reflexivity.
Defined.

(** ** Ways out of the loop *)

(** X7. The operator's interrupt, met in [accept] while the loop is listening,
    is the one clean way out: the message is printed, the listening socket
    closed, the loop left, and the process ends with status 0 without
    accepting what arrives later. *)
Theorem interrupt_stops_server (before rest : list arrival) (w w1 : world) :
  accept_loop before w = (Val Listening, w1) ->
  accept_loop (before +++ Interrupt :: rest) w
  = (Val Stopped, after w1 [PrintLine "[!] Keyboard interrupt!"; SockClose])
  /\ status_of (fst (accept_loop (before +++ Interrupt :: rest) w)) = Exit 0.
Proof.
  intros Hb.
  assert (Hrun : accept_loop (before +++ Interrupt :: rest) w
                 = (Val Stopped,
                    after w1 [PrintLine "[!] Keyboard interrupt!"; SockClose])).
  { rewrite (accept_loop_app _ _ _ _ Hb).
    now apply accept_loop_interrupted. }
  now rewrite Hrun.
Qed.

Lemma interrupt_stops_server_witness :
  status_of (fst (accept_loop [client "GET /index.html HTTP/1.1"; Interrupt;
                               client "GET /index.html HTTP/1.1"] site))
  = Exit 0.
Proof.
  apply (interrupt_stops_server
           [client "GET /index.html HTTP/1.1"]
           [client "GET /index.html HTTP/1.1"]
           site
           (snd (accept_loop [client "GET /index.html HTTP/1.1"] site))).
  reflexivity.
Defined.

(** X8. When the timeout of the listening socket expires in [accept], the
    exception is not caught: the loop ends by it, the listening socket is
    not closed, nothing is printed, and what arrives later is not
    accepted. *)
Theorem accept_timeout_ends_server (before rest : list arrival) (w w1 : world) :
  accept_loop before w = (Val Listening, w1) ->
  accept_loop (before +++ AcceptTimeout :: rest) w = (Raised SocketTimeout, w1)
  /\ status_of (fst (accept_loop (before +++ AcceptTimeout :: rest) w))
     = Uncaught SocketTimeout.
Proof.
  intros Hb.
  assert (Hrun : accept_loop (before +++ AcceptTimeout :: rest) w
                 = (Raised SocketTimeout, w1)).
  { rewrite (accept_loop_app _ _ _ _ Hb).
    now apply accept_loop_raised. }
  now rewrite Hrun.
Qed.

Lemma accept_timeout_ends_server_witness :
  accept_loop [AcceptTimeout; client "GET /index.html HTTP/1.1"] site
  = (Raised SocketTimeout, site).
Proof.
  apply (accept_timeout_ends_server [] [client "GET /index.html HTTP/1.1"]
           site site).
  reflexivity.
Defined.

(** X9. A first packet that is not well-formed UTF-8 ends the loop with
    [UnicodeDecodeError]: nothing is sent, the client is not closed, and
    what arrives later is not accepted. *)
Theorem undecodable_request_ends_server (before rest : list arrival)
    (w w1 : world) (payload : bytes) :
  accept_loop before w = (Val Listening, w1) ->
  decode (firstn PACKET_SIZE payload) = None ->
  accept_loop (before +++ Connection payload :: rest) w
  = (Raised UnicodeDecodeError, after w1 [SockAccept; SockRecv PACKET_SIZE])
  /\ status_of (fst (accept_loop (before +++ Connection payload :: rest) w))
     = Uncaught UnicodeDecodeError.
Proof.
  intros Hb Hd.
  assert (Hrun : accept_loop (before +++ Connection payload :: rest) w
                 = (Raised UnicodeDecodeError,
                    after w1 [SockAccept; SockRecv PACKET_SIZE])).
  { rewrite (accept_loop_app _ _ _ _ Hb).
    apply accept_loop_raised; [| reflexivity].
    now apply handle_undecodable. }
  now rewrite Hrun.
Qed.

Lemma undecodable_request_ends_server_witness :
  accept_loop [Connection [x47; x45; x54; x20; x2f; xff];
               client "GET /index.html HTTP/1.1"] site
  = (Raised UnicodeDecodeError, after site [SockAccept; SockRecv PACKET_SIZE]).
Proof.
  apply (undecodable_request_ends_server [] [client "GET /index.html HTTP/1.1"]
           site site [x47; x45; x54; x20; x2f; xff]).
  - reflexivity.
  - reflexivity.
Defined.

(** X10. A client that connects and sends nothing has the empty request, whose
    only token is the empty method: the server prints the error line and the
    process ends with status 1. *)
Theorem silent_client_ends_server (before rest : list arrival) (w w1 : world) :
  accept_loop before w = (Val Listening, w1) ->
  accept_loop (before +++ Connection [] :: rest) w
  = (Raised (SystemExit 1),
     after w1 [SockAccept; SockRecv PACKET_SIZE; PrintLine not_get_message])
  /\ status_of (fst (accept_loop (before +++ Connection [] :: rest) w)) = Exit 1.
Proof.
  intros Hb.
  assert (Hrun : accept_loop (before +++ Connection [] :: rest) w
                 = (Raised (SystemExit 1),
                    after w1 [SockAccept; SockRecv PACKET_SIZE;
                              PrintLine not_get_message])).
  { rewrite (accept_loop_app _ _ _ _ Hb).
    apply accept_loop_raised; [| reflexivity].
    apply (handle_not_get w1 [] ""); [reflexivity | discriminate]. }
  now rewrite Hrun.
Qed.

Lemma silent_client_ends_server_witness :
  status_of (fst (accept_loop [Connection []; client "GET /index.html HTTP/1.1"]
                              site))
  = Exit 1.
Proof.
  apply (silent_client_ends_server [] [client "GET /index.html HTTP/1.1"]
           site site).
  reflexivity.
Defined.

(** X11. A GET whose URI has a NUL character ends the loop with [ValueError]:
    [isdir] answers no, [open] refuses the path before the system is asked,
    and the handler for [OSError] does not catch the refusal.  Nothing is
    sent and what arrives later is not accepted. *)
Theorem nul_in_uri_ends_server (before rest : list arrival) (w w1 : world)
    (a : arrival) (uri : str) :
  accept_loop before w = (Val Listening, w1) ->
  requests a uri ->
  contains NUL uri = true ->
  accept_loop (before +++ a :: rest) w
  = (Raised ValueError,
     after w1 [SockAccept; SockRecv PACKET_SIZE;
               IsDir (ROOT_DIR ++ uri); OpenRead (ROOT_DIR ++ uri)])
  /\ status_of (fst (accept_loop (before +++ a :: rest) w)) = Uncaught ValueError.
Proof.
  intros Hb Ha Hn.
  assert (Hrun : accept_loop (before +++ a :: rest) w
                 = (Raised ValueError,
                    after w1 [SockAccept; SockRecv PACKET_SIZE;
                              IsDir (ROOT_DIR ++ uri); OpenRead (ROOT_DIR ++ uri)])).
  { rewrite (accept_loop_app _ _ _ _ Hb).
    apply accept_loop_raised; [| reflexivity].
    apply handle_nul; [exact Ha |].
    rewrite contains_app, Hn. apply orb_true_r. }
  now rewrite Hrun.
Qed.

Lemma nul_in_uri_ends_server_witness :
  status_of (fst (accept_loop
                    [Connection (encode ("GET /a" ++ String NUL ".txt HTTP/1.1"));
                     client "GET /index.html HTTP/1.1"] site))
  = Uncaught ValueError.
Proof.
  apply (nul_in_uri_ends_server [] [client "GET /index.html HTTP/1.1"] site site
           (Connection (encode ("GET /a" ++ String NUL ".txt HTTP/1.1")))
           ("/a" ++ String NUL ".txt")).
  - reflexivity.
  - exists (encode ("GET /a" ++ String NUL ".txt HTTP/1.1")),
      ("GET /a" ++ String NUL ".txt HTTP/1.1"), ["HTTP/1.1"].
    repeat split; reflexivity.
  - reflexivity.
Defined.

(** X12. Bytes beyond the first [PACKET_SIZE] of what a client sends are never
    read: they change nothing in what the connection does. *)
Theorem bytes_beyond_packet_are_ignored (w : world) (payload extra : bytes) :
  PACKET_SIZE <= List.length payload ->
  handle_connection (Connection (payload +++ extra)) w
  = handle_connection (Connection payload) w.
Proof.
  intros Hlen. unfold handle_connection, accept_recv.
  rewrite firstn_app.
  replace (PACKET_SIZE - List.length payload) with 0 by lia.
  cbn [firstn]. now rewrite app_nil_r.
Qed.

Lemma bytes_beyond_packet_are_ignored_witness :
  handle_connection
    (Connection (encode ("GET /index.html " ++ string_of_list_ascii (repeat "x"%char 1008))
                 +++ encode "POST")) site
  = handle_connection
      (Connection (encode ("GET /index.html "
                           ++ string_of_list_ascii (repeat "x"%char 1008)))) site.
Proof.
  apply (bytes_beyond_packet_are_ignored site
           (encode ("GET /index.html " ++ string_of_list_ascii (repeat "x"%char 1008)))
           (encode "POST")).
  vm_compute. lia.
Defined.

(** ** What the parser accepts *)

(** Two tokens or more: the first ends at the first separator. *)
Lemma split_cons_inv (sep : ascii) (s tok next : str) (more : list str) :
  split sep s = tok :: next :: more ->
  exists s', s = tok ++ String sep s'
             /\ contains sep tok = false
             /\ split sep s' = next :: more.
Proof.
  revert tok. induction s as [| c s IH]; simpl; intros tok H; [discriminate |].
  destruct (Ascii.eqb c sep) eqn:Hc.
  - apply Ascii.eqb_eq in Hc. subst c. inversion H; subst.
    exists s. repeat split; assumption.
  - destruct (split sep s) as [| t ts] eqn:Hs; [discriminate |].
    inversion H; subst.
    destruct (IH t eq_refl) as (s' & -> & Ht & Hs').
    exists s'. repeat split; [| exact Hs'].
    simpl. now rewrite Ascii.eqb_sym, Hc, Ht.
Qed.

(** X13. The parser returns a URI exactly for the requests that begin with [GET]
    and one space: the URI is what follows up to the next space or the end,
    whatever comes after it, and nothing is printed. *)
Theorem parser_returns_iff (request uri : str) (w w' : world) :
  parse_request_line request w = (Val uri, w')
  <-> w' = w
      /\ contains SPACE uri = false
      /\ (request = "GET " ++ uri
          \/ exists rest : str, request = "GET " ++ uri ++ String SPACE rest).
Proof.
  split.
  - intros H.
    destruct (split SPACE request) as [| m [| u more]] eqn:Hs.
    + now apply split_not_nil in Hs.
    + unfold parse_request_line in H. rewrite Hs in H. revert H. run.
      cbn [nth_error]. destruct (String.eqb m "GET"); discriminate.
    + destruct (String.eqb_spec m "GET") as [-> | Hm].
      * rewrite (parse_get _ _ _ _ Hs) in H. inversion H; subst.
        destruct (split_cons_inv _ _ _ _ _ Hs) as (s' & -> & _ & Hs').
        split; [reflexivity |].
        destruct more as [| v more].
        -- apply split_single in Hs' as [-> Hu]. split; [exact Hu | now left].
        -- destruct (split_cons_inv _ _ _ _ _ Hs') as (s'' & -> & Hu & _).
           split; [exact Hu | right; now exists s''].
      * rewrite parse_not_get in H; [discriminate |].
        rewrite Hs. cbn. intros Heq. apply Hm. now inversion Heq.
  - intros (-> & Hu & [-> | [rest ->]]).
    + apply (parse_get w _ uri []).
      change ("GET " ++ uri) with ("GET" ++ String SPACE uri).
      rewrite split_at_first by reflexivity. now rewrite split_without.
    + apply (parse_get w _ uri (split SPACE rest)).
      change ("GET " ++ uri ++ String SPACE rest)
        with ("GET" ++ String SPACE (uri ++ String SPACE rest)).
      rewrite split_at_first by reflexivity. now rewrite split_at_first.
Qed.

Example parser_takes_header_for_uri :
  fst (parse_request_line ("GET /index.html" ++ CRLF ++ "Host: localhost") site)
  = Val ("/index.html" ++ CRLF ++ "Host:").
Proof. reflexivity. Qed.

(** X14. The parser raises [IndexError] for one request only, the bare method
    [GET], and prints nothing then. *)
Theorem parser_index_error_iff (request : str) (w w' : world) :
  parse_request_line request w = (Raised IndexError, w')
  <-> request = "GET" /\ w' = w.
Proof.
  split.
  - intros H.
    destruct (split SPACE request) as [| m [| u more]] eqn:Hs.
    + now apply split_not_nil in Hs.
    + destruct (String.eqb_spec m "GET") as [-> | Hm].
      * rewrite (parse_short _ _ Hs) in H. inversion H.
        apply split_single in Hs as [-> _]. now split.
      * rewrite parse_not_get in H; [discriminate |].
        rewrite Hs. cbn. intros Heq. apply Hm. now inversion Heq.
    + destruct (String.eqb_spec m "GET") as [-> | Hm].
      * rewrite (parse_get _ _ _ _ Hs) in H. discriminate.
      * rewrite parse_not_get in H; [discriminate |].
        rewrite Hs. cbn. intros Heq. apply Hm. now inversion Heq.
  - intros [-> ->]. reflexivity.
Qed.

(** ** Paths that are not served *)

(** X15. A GET for a path that names nothing, a file that cannot be read, or a
    file without content is answered with the not-found response, and the
    loop goes on with the next arrival. *)
Theorem unservable_path_gets_not_found (w : world) (a : arrival) (uri : str)
    (rest : list arrival) :
  requests a uri ->
  contains NUL uri = false ->
  stat w (ROOT_DIR ++ uri) = Missing
  \/ stat w (ROOT_DIR ++ uri) = File None
  \/ stat w (ROOT_DIR ++ uri) = File (Some []) ->
  exists es : list effect,
    accept_loop (a :: rest) w = accept_loop rest (after w es)
    /\ sent es = [generate_not_found_response].
Proof.
  intros Ha Hn Hs.
  assert (Hp : contains NUL (ROOT_DIR ++ uri) = false)
    by (now rewrite contains_app, Hn).
  destruct Hs as [Hs | [Hs | Hs]].
  - eexists. split.
    + apply accept_loop_served.
      exact (handle_unopenable w a uri Ha Hp (or_introl Hs)).
    + reflexivity.
  - eexists. split.
    + apply accept_loop_served.
      exact (handle_unopenable w a uri Ha Hp (or_intror Hs)).
    + reflexivity.
  - eexists. split.
    + apply accept_loop_served. exact (handle_file w a uri [] Ha Hs).
    + reflexivity.
Qed.

Lemma unservable_path_gets_not_found_witness :
  sent (trace (snd (accept_loop [client "GET /nothing.html HTTP/1.1"] site)))
  = [generate_not_found_response].
Proof.
  destruct (unservable_path_gets_not_found site
              (client "GET /nothing.html HTTP/1.1") "/nothing.html" [])
    as (es & Hrun & Hsent).
  - exists (encode ("GET /nothing.html HTTP/1.1" ++ CRLF ++ CRLF)),
      ("GET /nothing.html HTTP/1.1" ++ CRLF ++ CRLF), ["HTTP/1.1" ++ CRLF ++ CRLF].
    repeat split; reflexivity.
  - reflexivity.
  - left. reflexivity.
  - rewrite Hrun. cbn [accept_loop ret snd after trace]. rewrite sent_app.
    exact Hsent.
Defined.

Lemma empty_bytes_answered_not_found_witness :
  accept_loop [client "GET /empty.txt HTTP/1.1"; Interrupt] site
  = accept_loop [Interrupt]
      (after site [SockAccept; SockRecv PACKET_SIZE;
                   IsDir "public/empty.txt"; OpenRead "public/empty.txt";
                   SockSend generate_not_found_response; ClientClose]).
Proof.
  apply (empty_bytes_answered_not_found site
           (after site [SockAccept; SockRecv PACKET_SIZE;
                        IsDir "public/empty.txt"; OpenRead "public/empty.txt"])
           (client "GET /empty.txt HTTP/1.1") "/empty.txt"
           (MimePair (Some (text_of "text/plain"), None)) [Interrupt]).
  - exists (encode ("GET /empty.txt HTTP/1.1" ++ CRLF ++ CRLF)),
      ("GET /empty.txt HTTP/1.1" ++ CRLF ++ CRLF), ["HTTP/1.1" ++ CRLF ++ CRLF].
    repeat split; reflexivity.
  - reflexivity.
Defined.

Lemma nonempty_directory_listing_witness :
  exists body : bytes,
    handle_connection (client "GET /docs HTTP/1.1") site
    = (Val tt,
       after site [SockAccept; SockRecv PACKET_SIZE;
                   IsDir "public/docs"; ListDir "public/docs";
                   SockSend (generate_ok_response body (MimeStr "text/plain"));
                   ClientClose])
    /\ line_count body = 4.
Proof.
  apply (nonempty_directory_listing site (client "GET /docs HTTP/1.1")
           "/docs" (encode "a.txt") [encode "b.txt"]).
  - exists (encode ("GET /docs HTTP/1.1" ++ CRLF ++ CRLF)),
      ("GET /docs HTTP/1.1" ++ CRLF ++ CRLF), ["HTTP/1.1" ++ CRLF ++ CRLF].
    repeat split; reflexivity.
  - reflexivity.
  - reflexivity.
  - reflexivity.
  - repeat constructor.
Defined.

(** ** Starting the server *)

(** X20. With two arguments of which the port is not accepted by [int], the
    program ends by [ValueError] before it has printed anything or touched a
    socket. *)
Theorem bad_port_raises_before_bind (py_int : str -> option Z)
    (prog host port_arg : str) (arrivals : list arrival) (w : world) :
  py_int port_arg = None ->
  main py_int [prog; host; port_arg] arrivals w = (Raised ValueError, w).
Proof.
  intros Hp. unfold main. cbv [bind index ret raise].
  cbn [List.length Nat.eqb negb nth_error]. now rewrite Hp.
Qed.

Lemma bad_port_raises_before_bind_witness :
  main (fun _ => None) ["http-server.py"; "localhost"; "http"]
       [client "GET /index.html HTTP/1.1"] site
  = (Raised ValueError, site).
Proof.
  apply (bad_port_raises_before_bind (fun _ => None)
           "http-server.py" "localhost" "http"
           [client "GET /index.html HTTP/1.1"] site).
  reflexivity.
Defined.

(** X21. When [bind] fails, [run_server] ends by its [OSError]: the socket is not
    set to listen, no line is printed and nothing is accepted. *)
Theorem bind_failure_ends_server (host : str) (port : Z)
    (arrivals : list arrival) (w : world) :
  bindable w host port = false ->
  run_server host port arrivals w = (Raised OSError, after w [SockBind host port])
  /\ status_of (fst (run_server host port arrivals w)) = Uncaught OSError.
Proof.
  intros Hb.
  assert (Hrun : run_server host port arrivals w
                 = (Raised OSError, after w [SockBind host port])).
  { unfold run_server, sock_bind. unfold bind at 1. unfold bind at 1.
    unfold emit at 1. cbn [bindable record]. now rewrite Hb. }
  now rewrite Hrun.
Qed.

Lemma bind_failure_ends_server_witness :
  run_server "localhost" 80 [client "GET /index.html HTTP/1.1"] (unbindable site)
  = (Raised OSError, after (unbindable site) [SockBind "localhost" 80]).
Proof.
  apply (bind_failure_ends_server "localhost" 80
           [client "GET /index.html HTTP/1.1"] (unbindable site)).
  reflexivity.
Defined.

(** X22. With two arguments, a port that [int] accepts and an address that
    [bind] accepts, the program binds that address, sets the timeout of 60
    seconds, listens with a backlog of 10 and prints the port in decimal,
    in this order and once, before the first [accept]; from then on it binds
    nothing more. *)
Theorem server_starts_then_serves (py_int : str -> option Z)
    (prog host port_arg : str) (port : Z) (arrivals : list arrival) (w : world) :
  py_int port_arg = Some port ->
  bindable w host port = true ->
  exists es : list effect,
    main py_int [prog; host; port_arg] arrivals w
    = accept_loop arrivals
        (after w [SockBind host port; SockSetTimeout 60; SockListen 10;
                  PrintLine ("[!] Server is listening on port "
                             ++ str_of_int port ++ ".")])
    /\ trace (snd (main py_int [prog; host; port_arg] arrivals w))
       = trace w
         +++ [SockBind host port; SockSetTimeout 60; SockListen 10;
              PrintLine ("[!] Server is listening on port "
                         ++ str_of_int port ++ ".")]
         +++ es
    /\ count is_bind es = 0.
Proof.
  intros Hp Hb.
  assert (Hmain : main py_int [prog; host; port_arg] arrivals w
                  = accept_loop arrivals
                      (after w [SockBind host port; SockSetTimeout 60;
                                SockListen 10;
                                PrintLine ("[!] Server is listening on port "
                                           ++ str_of_int port ++ ".")])).
  { unfold main. cbv [bind index ret].
    cbn [List.length Nat.eqb negb nth_error]. rewrite Hp.
    unfold run_server, sock_bind, print.
    unfold bind at 1. unfold bind at 1. unfold emit at 1.
    cbn [bindable record]. rewrite Hb.
    unfold bind, emit. tidy. reflexivity. }
  destruct (loop_outcome arrivals w) as (r & es & Hloop & _ & _ & Hbind & _).
  exists es. rewrite Hmain, Hloop. cbn [snd after trace].
  split; [reflexivity |]. split; [now rewrite app_assoc | exact Hbind].
Qed.

Lemma server_starts_then_serves_witness :
  status_of (fst (main (fun _ : str => Some 8080%Z)
                       ["http-server.py"; "localhost"; "8080"]
                       [client "GET /index.html HTTP/1.1"; Interrupt] site))
  = Exit 0.
Proof.
  destruct (server_starts_then_serves (fun _ : str => Some 8080%Z)
              "http-server.py" "localhost" "8080" 8080
              [client "GET /index.html HTTP/1.1"; Interrupt] site
              eq_refl eq_refl) as (es & Hmain & _).
  exact (eq_trans (f_equal (fun run => status_of (fst run)) Hmain) eq_refl).
Defined.

(** ** Exceptions that get out *)

(** X18. The resolver lets no [OSError] out: whatever the path names, an
    exception that leaves it is none that [except OSError] catches.  Two
    exceptions do leave it: the [ValueError] of [open] for a path with a NUL
    character, and the [UnicodeEncodeError] of the encoder for a directory
    that can be listed and has a name that is not well-formed UTF-8. *)
Theorem resolver_lets_no_os_error_out (w : world) (uri : str) :
  (forall e : exn,
     fst (get_request_data uri w) = Raised e -> is_OSError e = false)
  /\ (contains NUL uri = true ->
      fst (get_request_data uri w) = Raised ValueError)
  /\ (forall files : list bytes,
        stat w (ROOT_DIR ++ uri) = Directory (Some files) ->
        forallb utf8_valid files = false ->
        fst (get_request_data uri w) = Raised UnicodeEncodeError).
Proof.
  split; [| split].
  - intros e H.
    destruct (contains NUL (ROOT_DIR ++ uri)) eqn:Hn.
    + rewrite (resolve_nul w uri Hn) in H. now inversion H.
    + destruct (stat w (ROOT_DIR ++ uri)) as [| [content |] | [files |]] eqn:Hs.
      * rewrite (resolve_unopenable w uri Hn (or_introl Hs)) in H. discriminate.
      * rewrite (resolve_file w uri content Hs) in H. discriminate.
      * rewrite (resolve_unopenable w uri Hn (or_intror Hs)) in H. discriminate.
      * rewrite (resolve_listed w uri files Hs) in H.
        destruct (forallb utf8_valid files); [discriminate | now inversion H].
      * rewrite (resolve_unlistable w uri Hs) in H. discriminate.
  - intros Hn. rewrite (resolve_nul w uri); [reflexivity |].
    rewrite contains_app, Hn. apply orb_true_r.
  - intros files Hs Hv. now rewrite (resolve_directory_bad w uri files Hs Hv).
Qed.

Lemma resolver_lets_no_os_error_out_witness :
  fst (get_request_data "/odd" site) = Raised UnicodeEncodeError
  /\ fst (get_request_data ("/a" ++ String NUL ".txt") site) = Raised ValueError.
Proof.
  split.
  - apply (proj2 (proj2 (resolver_lets_no_os_error_out site "/odd"))
             [encode "a.txt"; [x62; xff]]); reflexivity.
  - apply (proj1 (proj2 (resolver_lets_no_os_error_out site
                           ("/a" ++ String NUL ".txt")))).
    reflexivity.
Defined.

(** X5. The loop catches the interrupt and nothing else: any other
    exception that a turn of the loop raises, in [accept], on the client's
    socket, in the parser or in the resolver, ends the loop as it is, with
    the effects of that turn and no more; the listening socket is not
    closed and what arrives later is not accepted. *)
Theorem uncaught_exception_ends_loop (before rest : list arrival)
    (w w1 w2 : world) (a : arrival) (e : exn) :
  accept_loop before w = (Val Listening, w1) ->
  handle_connection a w1 = (Raised e, w2) ->
  e <> KeyboardInterrupt ->
  accept_loop (before +++ a :: rest) w = (Raised e, w2)
  /\ status_of (fst (accept_loop (before +++ a :: rest) w))
     = match e with
       | SystemExit code => Exit code
       | _ => Uncaught e
       end.
Proof.
  intros Hb Ha He.
  assert (Hrun : accept_loop (before +++ a :: rest) w = (Raised e, w2)).
  { rewrite (accept_loop_app _ _ _ _ Hb).
    apply (accept_loop_raised _ _ _ _ _ Ha).
    destruct e; try reflexivity. contradiction. }
  rewrite Hrun. split; [reflexivity |]. now destruct e.
Qed.

Lemma uncaught_exception_ends_loop_witness :
  accept_loop [client "GET /index.html HTTP/1.1"; RecvTrouble PeerReset;
               client "GET /index.html HTTP/1.1"] site
  = (Raised OSError,
     after (snd (accept_loop [client "GET /index.html HTTP/1.1"] site))
       [SockAccept; SockRecv PACKET_SIZE]).
Proof.
  apply (uncaught_exception_ends_loop
           [client "GET /index.html HTTP/1.1"]
           [client "GET /index.html HTTP/1.1"]
           site
           (snd (accept_loop [client "GET /index.html HTTP/1.1"] site))
           (after (snd (accept_loop [client "GET /index.html HTTP/1.1"] site))
              [SockAccept; SockRecv PACKET_SIZE])
           (RecvTrouble PeerReset) OSError).
  - reflexivity.
  - reflexivity.
  - discriminate.
Defined.
